(** * Sync screen of cyrus-crm-phones: contacts and files synchronisation

    A shallow embedding of the request handlers of [app/(tabs)/index.tsx]
    (the [App] component): [syncContacts], [syncFiles],
    [getFilesFromDirectory], [sendContactsToBackend], [sendFilesToBackend],
    [performAutoSync] and [selectFolder], then [initializeApp],
    [checkContactsPermission], [requestContactsPermission],
    [loadStoredFolderUri], [loadLastSyncTime], [performManualSync] and
    [getPermissionStatus].

    The handlers are asynchronous JavaScript functions that call platform
    modules (contacts reader, document picker, file-info lookup, key-value
    store, HTTP client).  They are embedded in a state-and-exception monad
    over a [World] that holds the React state written by the setters, the
    key-value store, the log of observable effects and the number of clock
    readings made so far.  The answers of the platform modules are given by
    an environment [Env]; the values captured by the closures of one render
    ([contactsPermission], [selectedFolderUri]) are section variables, so a
    setter never changes what a handler of the same render reads. *)

From Stdlib Require Import Ascii.
From stdpp Require Import gmap strings list pretty.

Local Open Scope Z_scope.

(** ** Constants *)

Definition BACKEND_URL : string := "https://your-backend-url.com/api".

Module STORAGE_KEYS.
Definition CONTACTS_LAST_SYNC : string := "contacts_last_sync".
Definition FOLDER_URI : string := "folder_uri".
Definition FILES_LAST_SYNC : string := "files_last_sync".
End STORAGE_KEYS.

(** ** Data *)

(** [Contacts.PermissionStatus]; the state variable starts as [null],
    which is [None] below. *)
Inductive PermissionStatus := granted | denied | undetermined.

Global Instance PermissionStatus_eq_dec : EqDecision PermissionStatus.
Proof. solve_decision. Defined.

(** The fields requested from the contacts reader. *)
Record Contact := {
  contact_id : string;
  contact_name : string;
  phoneNumbers : list string;
  emails : list string;
}.

(** An entry of the file listing; [name] is what [Array.prototype.pop]
    gave, [None] standing for [undefined]. *)
Record FileEntry := {
  uri : string;
  name : option string;
  size : Z;
  modificationTime : Z;
}.

(** A thrown value: an [Error] object, of which the handlers read
    [message]. *)
Record JsError := { message : string }.

(** What [FileSystem.getInfoAsync] resolves to; an absent field is [None]. *)
Record FileInfo := {
  info_exists : bool;
  info_size : option Z;
  info_modificationTime : option Z;
}.

(** An HTTP response: its status and what [response.json()] gives. *)
Record Response := {
  status : Z;
  json : JsError + string;
}.

(** [Response.ok]: the status is in the range 200-299. *)
Definition ok (r : Response) : bool :=
  (200 <=? status r) && (status r <=? 299).

Record Asset := { asset_uri : string }.

(** What [DocumentPicker.getDocumentAsync] resolves to; [assets] is [None]
    when it is [null]. *)
Record PickerResult := {
  canceled : bool;
  assets : option (list Asset);
}.

(** The JSON envelope of a POST, before [JSON.stringify]. *)
Inductive Body :=
  | ContactsBody (contactsData : list Contact) (timestamp : string)
  | FilesBody (filesData : list FileEntry) (timestamp : string).

(** One reading of the clock: [Date.now()] and
    [new Date().toISOString()] of the same instant. *)
Record Instant := { millis : Z; iso : string }.

(** ** Observable effects *)

Inductive Event :=
  | Alert (title msg : string)
  | ConsoleError (label : string) (e : JsError)
  | ConsoleLog (label : string) (payload : option string)
  | ContactsRead
  | FileInfoLookup (directoryUri : string)
  | HttpPost (url : string) (body : Body)
  | StorageWrite (key value : string)
  | DocumentPick
  | SetTimeout (ms : Z).

(** Local reads: the contact list and the file-info lookup. *)
Definition is_local_read (e : Event) : bool :=
  match e with
  | ContactsRead | FileInfoLookup _ => true
  | _ => false
  end.

Definition is_network_request (e : Event) : bool :=
  match e with
  | HttpPost _ _ => true
  | _ => false
  end.

Definition is_alert (e : Event) : bool :=
  match e with
  | Alert _ _ => true
  | _ => false
  end.

(** ** The component state and the world *)

(** The seven [useState] cells of [App]. *)
Record AppState := {
  s_contactsPermission : option PermissionStatus;
  s_selectedFolderUri : option string;
  s_contacts : list Contact;
  s_files : list FileEntry;
  s_isLoading : bool;
  s_lastSyncTime : option string;
  s_syncStatus : string;
}.

Definition initialState : AppState := {|
  s_contactsPermission := None;
  s_selectedFolderUri := None;
  s_contacts := [];
  s_files := [];
  s_isLoading := false;
  s_lastSyncTime := None;
  s_syncStatus := "";
|}.

Record World := {
  app : AppState;
  storage : gmap string string;
  trace : list Event;
  ticks : nat;
}.

(** The platform: what each external call answers.  [inl e] is a rejected
    promise (the call throws [e]). *)
Record Env := {
  getContactsAsync : JsError + list Contact;
  getInfoAsync : string -> JsError + FileInfo;
  fetch : string -> Body -> JsError + Response;
  setItem : string -> string -> option JsError;
  getDocumentAsync : JsError + PickerResult;
  clock : nat -> Instant;
}.

(** ** The monad of asynchronous handlers *)

Inductive Completion (A : Type) :=
  | Normal (a : A)
  | Throw (e : JsError).
Arguments Normal {A} a.
Arguments Throw {A} e.

Definition Async (A : Type) : Type := World -> Completion A * World.

Definition ret {A} (a : A) : Async A := fun w => (Normal a, w).

Definition throw {A} (e : JsError) : Async A := fun w => (Throw e, w).

Definition bind {A B} (m : Async A) (k : A -> Async B) : Async B :=
  fun w =>
    match m w with
    | (Normal a, w') => k a w'
    | (Throw e, w') => (Throw e, w')
    end.

(** [try { body } catch (error) { handler error }] *)
Definition try_catch {A} (body : Async A) (handler : JsError -> Async A)
  : Async A :=
  fun w =>
    match body w with
    | (Normal a, w') => (Normal a, w')
    | (Throw e, w') => handler e w'
    end.

(** [try { body } finally { fin }]: [fin] runs on both exits and the
    completion of [body] is kept unless [fin] throws. *)
Definition try_finally {A} (body : Async A) (fin : Async unit) : Async A :=
  fun w =>
    match body w with
    | (c, w') =>
        match fin w' with
        | (Normal _, w'') => (c, w'')
        | (Throw e, w'') => (Throw e, w'')
        end
    end.

(** The monad operations are registered with stdpp's classes, which gives
    the notations [x ← m; k] and [m;; k]. *)
Global Instance Async_ret : MRet Async := @ret.
Global Instance Async_bind : MBind Async := fun A B k m => bind m k.

(** ** Primitive effects that do not depend on the platform *)

Definition emit (e : Event) : Async unit :=
  fun w => (Normal tt,
            {| app := app w; storage := storage w;
               trace := trace w ++ [e]; ticks := ticks w |}).

Definition modify (f : AppState -> AppState) : Async unit :=
  fun w => (Normal tt,
            {| app := f (app w); storage := storage w;
               trace := trace w; ticks := ticks w |}).

Definition setSelectedFolderUri (v : option string) : Async unit :=
  modify (fun s =>
    {| s_contactsPermission := s_contactsPermission s;
       s_selectedFolderUri := v;
       s_contacts := s_contacts s; s_files := s_files s;
       s_isLoading := s_isLoading s; s_lastSyncTime := s_lastSyncTime s;
       s_syncStatus := s_syncStatus s |}).

Definition setContacts (v : list Contact) : Async unit :=
  modify (fun s =>
    {| s_contactsPermission := s_contactsPermission s;
       s_selectedFolderUri := s_selectedFolderUri s;
       s_contacts := v; s_files := s_files s;
       s_isLoading := s_isLoading s; s_lastSyncTime := s_lastSyncTime s;
       s_syncStatus := s_syncStatus s |}).

Definition setFiles (v : list FileEntry) : Async unit :=
  modify (fun s =>
    {| s_contactsPermission := s_contactsPermission s;
       s_selectedFolderUri := s_selectedFolderUri s;
       s_contacts := s_contacts s; s_files := v;
       s_isLoading := s_isLoading s; s_lastSyncTime := s_lastSyncTime s;
       s_syncStatus := s_syncStatus s |}).

Definition setIsLoading (v : bool) : Async unit :=
  modify (fun s =>
    {| s_contactsPermission := s_contactsPermission s;
       s_selectedFolderUri := s_selectedFolderUri s;
       s_contacts := s_contacts s; s_files := s_files s;
       s_isLoading := v; s_lastSyncTime := s_lastSyncTime s;
       s_syncStatus := s_syncStatus s |}).

Definition setLastSyncTime (v : option string) : Async unit :=
  modify (fun s =>
    {| s_contactsPermission := s_contactsPermission s;
       s_selectedFolderUri := s_selectedFolderUri s;
       s_contacts := s_contacts s; s_files := s_files s;
       s_isLoading := s_isLoading s; s_lastSyncTime := v;
       s_syncStatus := s_syncStatus s |}).

Definition setSyncStatus (v : string) : Async unit :=
  modify (fun s =>
    {| s_contactsPermission := s_contactsPermission s;
       s_selectedFolderUri := s_selectedFolderUri s;
       s_contacts := s_contacts s; s_files := s_files s;
       s_isLoading := s_isLoading s; s_lastSyncTime := s_lastSyncTime s;
       s_syncStatus := v |}).

Definition Alert_alert (title msg : string) : Async unit :=
  emit (Alert title msg).

Definition console_error (label : string) (e : JsError) : Async unit :=
  emit (ConsoleError label e).

Definition console_log (label : string) (payload : option string)
  : Async unit :=
  emit (ConsoleLog label payload).

(** [setTimeout(() => setSyncStatus(''), ms)]: the callback is only
    scheduled, it does not run inside the handler. *)
Definition setTimeout_clearStatus (ms : Z) : Async unit :=
  emit (SetTimeout ms).

(** ** JavaScript values *)

(** Truthiness of a string-or-null: [null] and the empty string are falsy. *)
Definition truthy (v : option string) : bool :=
  match v with
  | Some s => negb (String.eqb s "")
  | None => false
  end.

(** [x || d] on a number-or-undefined: [undefined] and [0] are falsy. *)
Definition or_else (x : option Z) (d : Z) : Z :=
  match x with
  | Some v => if v =? 0 then d else v
  | None => d
  end.

(** [s.split('/')]: the pieces between the separators, never an empty
    array. *)
Fixpoint split (s : string) : list string :=
  match s with
  | EmptyString => [EmptyString]
  | String c rest =>
      if Ascii.eqb c "/"%char then EmptyString :: split rest
      else match split rest with
           | piece :: pieces => String c piece :: pieces
           | [] => [String c EmptyString]
           end
  end.

(** [a.pop()] as a value: the last element, [undefined] on an empty
    array. *)
Definition pop (a : list string) : option string := last a.

(** ** The handlers of one render *)

Section Handlers.

(** The platform the handlers run against. *)
Variable env : Env.

(** *** Platform calls *)

Definition Contacts_getContactsAsync : Async (list Contact) :=
  emit ContactsRead;;
  match getContactsAsync env with
  | inr data => ret data
  | inl e => throw e
  end.

Definition FileSystem_getInfoAsync (directoryUri : string)
  : Async FileInfo :=
  emit (FileInfoLookup directoryUri);;
  match getInfoAsync env directoryUri with
  | inr fileInfo => ret fileInfo
  | inl e => throw e
  end.

Definition fetch_POST (url : string) (body : Body) : Async Response :=
  emit (HttpPost url body);;
  match fetch env url body with
  | inr response => ret response
  | inl e => throw e
  end.

Definition response_json (response : Response) : Async string :=
  match json response with
  | inr result => ret result
  | inl e => throw e
  end.

Definition DocumentPicker_getDocumentAsync : Async PickerResult :=
  emit DocumentPick;;
  match getDocumentAsync env with
  | inr result => ret result
  | inl e => throw e
  end.

(** The write is logged when it is attempted and reaches the store only
    when the platform accepts it. *)
Definition AsyncStorage_setItem (key value : string) : Async unit :=
  emit (StorageWrite key value);;
  match setItem env key value with
  | None =>
      fun w => (Normal tt,
                {| app := app w; storage := <[key:=value]> (storage w);
                   trace := trace w; ticks := ticks w |})
  | Some e => throw e
  end.

Definition readClock : Async Instant :=
  fun w => (Normal (clock env (ticks w)),
            {| app := app w; storage := storage w;
               trace := trace w; ticks := S (ticks w) |}).

(** [new Date().toISOString()] *)
Definition Date_toISOString : Async string :=
  t ← readClock; ret (iso t).

(** [Date.now()] *)
Definition Date_now : Async Z :=
  t ← readClock; ret (millis t).

(** [x || Date.now()]: the clock is read only when [x] is falsy. *)
Definition or_else_now (x : option Z) : Async Z :=
  match x with
  | Some v => if v =? 0 then Date_now else ret v
  | None => Date_now
  end.

(** *** getFilesFromDirectory *)

Definition getFilesFromDirectory (directoryUri : string)
  : Async (list FileEntry) :=
  try_catch
    (fileInfo ← FileSystem_getInfoAsync directoryUri;
     if info_exists fileInfo then
       mtime ← or_else_now (info_modificationTime fileInfo);
       ret [ {| uri := directoryUri;
                name := pop (split directoryUri);
                size := or_else (info_size fileInfo) 0;
                modificationTime := mtime |} ]
     else
       ret [])
    (fun error =>
       console_error "Error getting files:" error;;
       ret []).

(** *** sendContactsToBackend, sendFilesToBackend *)

Definition sendContactsToBackend (contactsData : list Contact)
  : Async unit :=
  try_catch
    (timestamp ← Date_toISOString;
     response ← fetch_POST (BACKEND_URL +:+ "/sync-contacts")
                           (ContactsBody contactsData timestamp);
     if negb (ok response) then
       throw {| message :=
                  "HTTP error! status: " +:+ pretty (status response) |}
     else
       result ← response_json response;
       console_log "Contacts synced to backend:" (Some result))
    (fun error =>
       console_error "Backend sync error for contacts:" error;;
       console_log "Continuing with local storage only" None).

Definition sendFilesToBackend (filesData : list FileEntry) : Async unit :=
  try_catch
    (timestamp ← Date_toISOString;
     response ← fetch_POST (BACKEND_URL +:+ "/sync-files")
                           (FilesBody filesData timestamp);
     if negb (ok response) then
       throw {| message :=
                  "HTTP error! status: " +:+ pretty (status response) |}
     else
       result ← response_json response;
       console_log "Files synced to backend:" (Some result))
    (fun error =>
       console_error "Backend sync error for files:" error;;
       console_log "Continuing with local storage only" None).

(** *** The closures of one render *)

(** The values of the state cells captured when the handlers were
    created. *)
Variable contactsPermission : option PermissionStatus.
Variable selectedFolderUri : option string.

Definition syncContacts : Async unit :=
  if negb (bool_decide (contactsPermission = Some granted)) then
    Alert_alert "Permission Required"
                "Please grant contacts permission first."
  else
    setIsLoading true;;
    setSyncStatus "Syncing contacts...";;
    try_finally
      (try_catch
         (data ← Contacts_getContactsAsync;
          setContacts data;;
          sendContactsToBackend data;;
          now ← Date_toISOString;
          AsyncStorage_setItem STORAGE_KEYS.CONTACTS_LAST_SYNC now;;
          setLastSyncTime (Some now);;
          setSyncStatus "Contacts synced successfully!";;
          setTimeout_clearStatus 3000)
         (fun error =>
            console_error "Error syncing contacts:" error;;
            Alert_alert "Sync Error"
                        ("Failed to sync contacts: " +:+ message error);;
            setSyncStatus "Contacts sync failed";;
            setTimeout_clearStatus 3000))
      (setIsLoading false).

(** Past the guard [selectedFolderUri] is a non-empty string, which
    [default] extracts. *)
Definition syncFiles : Async unit :=
  if negb (truthy selectedFolderUri) then
    Alert_alert "Folder Required" "Please select a folder first."
  else
    setIsLoading true;;
    setSyncStatus "Syncing files...";;
    try_finally
      (try_catch
         (fileList ← getFilesFromDirectory (default "" selectedFolderUri);
          setFiles fileList;;
          sendFilesToBackend fileList;;
          now ← Date_toISOString;
          AsyncStorage_setItem STORAGE_KEYS.FILES_LAST_SYNC now;;
          setSyncStatus "Files synced successfully!";;
          setTimeout_clearStatus 3000)
         (fun error =>
            console_error "Error syncing files:" error;;
            Alert_alert "Sync Error"
                        ("Failed to sync files: " +:+ message error);;
            setSyncStatus "Files sync failed";;
            setTimeout_clearStatus 3000))
      (setIsLoading false).

Definition performAutoSync : Async unit :=
  try_catch
    ((if bool_decide (contactsPermission = Some granted)
      then syncContacts else ret tt);;
     (if truthy selectedFolderUri then syncFiles else ret tt))
    (fun error => console_error "Auto sync error:" error).

Definition selectFolder : Async unit :=
  try_catch
    (result ← DocumentPicker_getDocumentAsync;
     if negb (canceled result) then
       match assets result with
       | Some (asset :: _) =>
           let folderUri := asset_uri asset in
           setSelectedFolderUri (Some folderUri);;
           AsyncStorage_setItem STORAGE_KEYS.FOLDER_URI folderUri;;
           Alert_alert "Success" "Folder access granted!";;
           syncFiles
       | _ => ret tt
       end
     else
       ret tt)
    (fun error =>
       console_error "Error selecting folder:" error;;
       Alert_alert "Error" "Failed to select folder").

End Handlers.

(** ** Start-up, permission and manual sync *)

(** What the permission gateway answers, and whether a read of the store
    is rejected; a read that is not rejected gives what the store holds.
    These calls leave no entry in the log of the world. *)
Record Gateway := {
  getPermissionsAsync : JsError + PermissionStatus;
  requestPermissionsAsync : JsError + PermissionStatus;
  getItem_rejects : string -> option JsError;
}.

(** The label, colour and icon shown for a permission. *)
Record Badge := { text : string; color : string; icon : string }.

Definition getPermissionStatus (permission : option PermissionStatus)
  : Badge :=
  match permission with
  | Some granted =>
      {| text := "Granted"; color := "#4CAF50"; icon := "checkmark-circle" |}
  | Some denied =>
      {| text := "Denied"; color := "#F44336"; icon := "close-circle" |}
  | _ =>
      {| text := "Not Requested"; color := "#FF9800";
         icon := "help-circle" |}
  end.

Definition setContactsPermission (v : option PermissionStatus)
  : Async unit :=
  modify (fun s =>
    {| s_contactsPermission := v;
       s_selectedFolderUri := s_selectedFolderUri s;
       s_contacts := s_contacts s; s_files := s_files s;
       s_isLoading := s_isLoading s; s_lastSyncTime := s_lastSyncTime s;
       s_syncStatus := s_syncStatus s |}).

Section Startup.

Variable env : Env.
Variable gateway : Gateway.

Definition Contacts_getPermissionsAsync : Async PermissionStatus :=
  match getPermissionsAsync gateway with
  | inr status => ret status
  | inl e => throw e
  end.

Definition Contacts_requestPermissionsAsync : Async PermissionStatus :=
  match requestPermissionsAsync gateway with
  | inr status => ret status
  | inl e => throw e
  end.

(** [null] for a missing key is [None]. *)
Definition AsyncStorage_getItem (key : string) : Async (option string) :=
  fun w =>
    match getItem_rejects gateway key with
    | None => (Normal (storage w !! key), w)
    | Some e => (Throw e, w)
    end.

Definition checkContactsPermission : Async PermissionStatus :=
  try_catch
    (status ← Contacts_getPermissionsAsync;
     setContactsPermission (Some status);;
     ret status)
    (fun error =>
       console_error "Error checking contacts permission:" error;;
       ret denied).

Definition loadStoredFolderUri : Async unit :=
  try_catch
    (storedUri ← AsyncStorage_getItem STORAGE_KEYS.FOLDER_URI;
     if truthy storedUri then setSelectedFolderUri storedUri else ret tt)
    (fun error => console_error "Error loading stored folder URI:" error).

(** [new Date(lastSync)] is kept as the string it is built from, as in
    [syncContacts]. *)
Definition loadLastSyncTime : Async unit :=
  try_catch
    (lastSync ← AsyncStorage_getItem STORAGE_KEYS.CONTACTS_LAST_SYNC;
     if truthy lastSync then setLastSyncTime lastSync else ret tt)
    (fun error => console_error "Error loading last sync time:" error).

(** The values captured by the closures, as in [Handlers]. *)
Variable contactsPermission : option PermissionStatus.
Variable selectedFolderUri : option string.

Definition requestContactsPermission : Async PermissionStatus :=
  try_catch
    (status ← Contacts_requestPermissionsAsync;
     setContactsPermission (Some status);;
     (if bool_decide (status = granted) then
        Alert_alert "Success" "Contacts permission granted!";;
        syncContacts env contactsPermission
      else
        Alert_alert "Permission Denied"
          "Contacts access is required for this app to work properly.");;
     ret status)
    (fun error =>
       console_error "Error requesting contacts permission:" error;;
       Alert_alert "Error" "Failed to request contacts permission";;
       ret denied).

Definition initializeApp : Async unit :=
  setIsLoading true;;
  try_finally
    (try_catch
       (checkContactsPermission;;
        loadStoredFolderUri;;
        loadLastSyncTime;;
        if bool_decide (contactsPermission = Some granted)
           && truthy selectedFolderUri
        then performAutoSync env contactsPermission selectedFolderUri
        else ret tt)
       (fun error =>
          console_error "Initialization error:" error;;
          Alert_alert "Initialization Error" (message error)))
    (setIsLoading false).

Definition performManualSync : Async unit :=
  setIsLoading true;;
  setSyncStatus "Manual sync in progress...";;
  try_finally
    (try_catch
       (performAutoSync env contactsPermission selectedFolderUri;;
        setSyncStatus "Manual sync completed!";;
        setTimeout_clearStatus 3000)
       (fun error =>
          setSyncStatus "Manual sync failed";;
          setTimeout_clearStatus 3000;;
          Alert_alert "Sync Error" (message error)))
    (setIsLoading false).

End Startup.

(** * Properties *)

(** ** Vocabulary of the statements *)

(** [w'] is [w] with the events [evs] logged and [n] more clock readings;
    the component state and the store are those of [w]. *)
Definition after (w : World) (evs : list Event) (n : nat) : World :=
  {| app := app w; storage := storage w;
     trace := trace w ++ evs; ticks := n + ticks w |}.

(** No blocking alert among the events. *)
Definition quiet (evs : list Event) : bool :=
  forallb (fun e => negb (is_alert e)) evs.

Definition local_reads (evs : list Event) : list Event :=
  filter (fun e => is_local_read e = true) evs.

Definition network_requests (evs : list Event) : list Event :=
  filter (fun e => is_network_request e = true) evs.

(** The POST was answered by a rejection or by a status outside 200-299. *)
Definition post_fails (answer : JsError + Response) : Prop :=
  match answer with
  | inl _ => True
  | inr response => ok response = false
  end.

Definition no_slash (seg : string) : Prop :=
  ∀ c, c ∈ String.list_ascii_of_string seg → c ≠ "/"%char.

(** [seg] is the last '/'-separated segment of [path]: it holds no '/',
    and [path] is [seg] alone or ends with a '/' followed by [seg]. *)
Definition is_last_segment (path seg : string) : Prop :=
  no_slash seg ∧ (path = seg ∨ ∃ dir, path = dir +:+ "/" +:+ seg).

(** [a.join('/')], used only to say what [split] returns. *)
Fixpoint join (a : list string) : string :=
  match a with
  | [] => ""
  | [piece] => piece
  | piece :: pieces => piece +:+ "/" +:+ join pieces
  end.

(** The conclusion of the remote-failure property of [syncContacts]: the
    handler [r] returned normally, [contacts_last_sync] holds the instant
    read after the submission, which is the second reading of the clock
    (the first one stamps the envelope), and no alert was raised. *)
Definition timestamp_updated_silently
    (env : Env) (w : World) (r : Completion unit * World) : Prop :=
  ∃ evs,
    r.1 = Normal tt ∧
    storage r.2 !! STORAGE_KEYS.CONTACTS_LAST_SYNC =
      Some (iso (clock env (S (ticks w)))) ∧
    trace r.2 = trace w ++ evs ∧
    quiet evs = true.

(** The conclusion of the local-read-failure property read on
    [syncFiles]: the run [r] ends with the failure status, an alert
    carrying the message of [e] was raised, and [files_last_sync] is what
    it was. *)
Definition files_sync_failed
    (w : World) (e : JsError) (r : Completion unit * World) : Prop :=
  s_syncStatus (app r.2) = "Files sync failed" ∧
  Alert "Sync Error" ("Failed to sync files: " +:+ message e) ∈ trace r.2 ∧
  storage r.2 !! STORAGE_KEYS.FILES_LAST_SYNC =
    storage w !! STORAGE_KEYS.FILES_LAST_SYNC.

(** ** Concrete platforms, for the examples *)

Definition ann : Contact :=
  {| contact_id := "1"; contact_name := "Ann";
     phoneNumbers := ["+20 100 000 0000"]; emails := ["ann@example.com"] |}.

Definition mock_clock (n : nat) : Instant :=
  {| millis := 1700000000000 + Z.of_nat n;
     iso := "2023-11-14T22:13:20.00" +:+ pretty n +:+ "Z" |}.

Definition mock_folder : string := "file:///mock/folder".

Definition w0 : World :=
  {| app := initialState; storage := ∅; trace := []; ticks := 0 |}.

(** Contacts and folder readable, backend answering 500, store
    accepting writes, picker cancelled. *)
Definition env_backend_500 : Env :=
  {| getContactsAsync := inr [ann];
     getInfoAsync := fun _ =>
       inr {| info_exists := true; info_size := Some 4096;
              info_modificationTime := Some 1699999999000 |};
     fetch := fun _ _ => inr {| status := 500; json := inr "{}" |};
     setItem := fun _ _ => None;
     getDocumentAsync := inr {| canceled := true; assets := None |};
     clock := mock_clock |}.

(** As [env_backend_500], with a store that rejects every write. *)
Definition env_store_rejects : Env :=
  {| getContactsAsync := getContactsAsync env_backend_500;
     getInfoAsync := getInfoAsync env_backend_500;
     fetch := fetch env_backend_500;
     setItem := fun _ _ => Some {| message := "database or disk is full" |};
     getDocumentAsync := getDocumentAsync env_backend_500;
     clock := mock_clock |}.

(** Both local reads reject; backend and store work. *)
Definition env_reads_throw : Env :=
  {| getContactsAsync := inl {| message := "contacts unavailable" |};
     getInfoAsync := fun _ => inl {| message := "permission denied" |};
     fetch := fun _ _ => inr {| status := 200; json := inr "{}" |};
     setItem := fun _ _ => None;
     getDocumentAsync := inr {| canceled := false; assets := Some [] |};
     clock := mock_clock |}.

(** ** Vocabulary of the further properties *)

(** Console output. *)
Definition is_log (e : Event) : bool :=
  match e with
  | ConsoleError _ _ | ConsoleLog _ _ => true
  | _ => false
  end.

Definition alerts (evs : list Event) : list Event :=
  filter (fun e => is_alert e = true) evs.

(** The timestamp [syncFiles] writes for the folder [directoryUri] from
    the world [w]: the clock is read by [getFilesFromDirectory] when it
    needs a modification time, once for the envelope of the POST, and
    then for the timestamp. *)
Definition files_stamp (env : Env) (directoryUri : string) (w : World)
  : string :=
  iso (clock env (S (ticks (getFilesFromDirectory env directoryUri w).2))).

(** The error, if any, that reaches the [catch] block of [syncContacts]
    run from [w]: the one of the contact read, else the one of the write
    of the timestamp. *)
Definition contacts_error (env : Env) (w : World) : option JsError :=
  match getContactsAsync env with
  | inl e => Some e
  | inr _ =>
      setItem env STORAGE_KEYS.CONTACTS_LAST_SYNC
        (iso (clock env (S (ticks w))))
  end.

(** The error [e] of a sub-sync was swallowed and logged by the run [r]
    from [w]: the run returned normally, a console line carries [e], and
    no alert was raised. *)
Definition swallowed_and_logged
    (w : World) (e : JsError) (r : Completion unit * World) : Prop :=
  r.1 = Normal tt ∧
  (∃ label, ConsoleError label e ∈ trace r.2) ∧
  ∃ evs, trace r.2 = trace w ++ evs ∧ quiet evs = true.

(** The component state a sync handler ends with: the loading flag is
    cleared and the status is [status]. *)
Definition settled (s : AppState) (status : string) : AppState :=
  {| s_contactsPermission := s_contactsPermission s;
     s_selectedFolderUri := s_selectedFolderUri s;
     s_contacts := s_contacts s; s_files := s_files s;
     s_isLoading := false; s_lastSyncTime := s_lastSyncTime s;
     s_syncStatus := status |}.

Definition with_contacts (s : AppState) (data : list Contact) : AppState :=
  {| s_contactsPermission := s_contactsPermission s;
     s_selectedFolderUri := s_selectedFolderUri s;
     s_contacts := data; s_files := s_files s;
     s_isLoading := s_isLoading s; s_lastSyncTime := s_lastSyncTime s;
     s_syncStatus := s_syncStatus s |}.

Definition with_files (s : AppState) (l : list FileEntry) : AppState :=
  {| s_contactsPermission := s_contactsPermission s;
     s_selectedFolderUri := s_selectedFolderUri s;
     s_contacts := s_contacts s; s_files := l;
     s_isLoading := s_isLoading s; s_lastSyncTime := s_lastSyncTime s;
     s_syncStatus := s_syncStatus s |}.

Definition with_lastSyncTime (s : AppState) (t : option string)
  : AppState :=
  {| s_contactsPermission := s_contactsPermission s;
     s_selectedFolderUri := s_selectedFolderUri s;
     s_contacts := s_contacts s; s_files := s_files s;
     s_isLoading := s_isLoading s; s_lastSyncTime := t;
     s_syncStatus := s_syncStatus s |}.

Definition with_folder (s : AppState) (v : option string) : AppState :=
  {| s_contactsPermission := s_contactsPermission s;
     s_selectedFolderUri := v;
     s_contacts := s_contacts s; s_files := s_files s;
     s_isLoading := s_isLoading s; s_lastSyncTime := s_lastSyncTime s;
     s_syncStatus := s_syncStatus s |}.

Definition with_permission (s : AppState) (v : option PermissionStatus)
  : AppState :=
  {| s_contactsPermission := v;
     s_selectedFolderUri := s_selectedFolderUri s;
     s_contacts := s_contacts s; s_files := s_files s;
     s_isLoading := s_isLoading s; s_lastSyncTime := s_lastSyncTime s;
     s_syncStatus := s_syncStatus s |}.

(** The world a restarted application finds: the store of [w], a fresh
    component state. *)
Definition restart (w : World) : World :=
  {| app := initialState; storage := storage w;
     trace := trace w; ticks := ticks w |}.

(** Two platforms that differ at most in what the backend answers. *)
Definition same_but_backend (env1 env2 : Env) : Prop :=
  getContactsAsync env1 = getContactsAsync env2 ∧
  (∀ u, getInfoAsync env1 u = getInfoAsync env2 u) ∧
  (∀ k v, setItem env1 k v = setItem env2 k v) ∧
  (∀ n, clock env1 n = clock env2 n).

(** Two worlds that differ at most in the lines of their log that are
    not alerts. *)
Definition same_but_log (w1 w2 : World) : Prop :=
  app w1 = app w2 ∧
  storage w1 = storage w2 ∧
  ticks w1 = ticks w2 ∧
  alerts (trace w1) = alerts (trace w2).

(** Everything works: 200 from the backend, the picker gives
    [mock_folder]. *)
Definition env_all_fine : Env :=
  {| getContactsAsync := inr [ann];
     getInfoAsync := getInfoAsync env_backend_500;
     fetch := fun _ _ => inr {| status := 200; json := inr "{}" |};
     setItem := fun _ _ => None;
     getDocumentAsync :=
       inr {| canceled := false;
              assets := Some [ {| asset_uri := mock_folder |} ] |};
     clock := mock_clock |}.

(** As [env_all_fine], with a store that rejects every write. *)
Definition env_picks_store_rejects : Env :=
  {| getContactsAsync := inr [ann];
     getInfoAsync := getInfoAsync env_backend_500;
     fetch := fetch env_all_fine;
     setItem := fun _ _ => Some {| message := "database or disk is full" |};
     getDocumentAsync := getDocumentAsync env_all_fine;
     clock := mock_clock |}.

(** As [env_all_fine], with a picker that throws. *)
Definition env_picker_throws : Env :=
  {| getContactsAsync := inr [ann];
     getInfoAsync := getInfoAsync env_backend_500;
     fetch := fetch env_all_fine;
     setItem := fun _ _ => None;
     getDocumentAsync := inl {| message := "picker unavailable" |};
     clock := mock_clock |}.

(** As [env_all_fine], with a backend that answers 200 and a body that
    is not JSON. *)
Definition env_bad_json : Env :=
  {| getContactsAsync := inr [ann];
     getInfoAsync := getInfoAsync env_backend_500;
     fetch := fun _ _ =>
       inr {| status := 200;
              json := inl {| message := "JSON Parse error" |} |};
     setItem := fun _ _ => None;
     getDocumentAsync := getDocumentAsync env_all_fine;
     clock := mock_clock |}.

Definition gateway_grants : Gateway :=
  {| getPermissionsAsync := inr granted;
     requestPermissionsAsync := inr granted;
     getItem_rejects := fun _ => None |}.

Definition gateway_denies : Gateway :=
  {| getPermissionsAsync := inr denied;
     requestPermissionsAsync := inr denied;
     getItem_rejects := fun _ => None |}.

Definition gateway_throws : Gateway :=
  {| getPermissionsAsync := inl {| message := "module missing" |};
     requestPermissionsAsync := inl {| message := "module missing" |};
     getItem_rejects := fun _ => Some {| message := "store closed" |} |}.

(** ** Running the monad *)

Ltac unfold_async :=
  unfold mbind, Async_bind, bind, try_catch, try_finally, ret, throw,
    Alert_alert, console_error, console_log, setTimeout_clearStatus,
    setContacts, setFiles, setIsLoading, setLastSyncTime, setSyncStatus,
    setSelectedFolderUri, emit, modify in *.

Lemma quiet_app (xs ys : list Event) :
  quiet (xs ++ ys) = quiet xs && quiet ys.
Proof. unfold quiet. apply forallb_app. Qed.

Section HandlerFacts.

Variable env : Env.

(** *** The remote submission never throws and never alerts *)

Lemma sendContactsToBackend_swallows (data : list Contact) (w : World) :
  ∃ evs,
    sendContactsToBackend env data w = (Normal tt, after w evs 1) ∧
    quiet evs = true ∧
    network_requests evs =
      [HttpPost (BACKEND_URL +:+ "/sync-contacts")
                (ContactsBody data (iso (clock env (ticks w))))].
Proof.
  unfold sendContactsToBackend, Date_toISOString, readClock, fetch_POST,
    response_json, after.
  unfold_async. cbn.
  destruct (fetch env _ _) as [e | response]; cbn.
  - eexists. rewrite <- !app_assoc. cbn. done.
  - destruct (ok response); cbn.
    + destruct (json response) as [e | result]; cbn;
        eexists; rewrite <- !app_assoc; cbn; done.
    + eexists. rewrite <- !app_assoc. cbn. done.
Qed.

Lemma sendFilesToBackend_swallows (l : list FileEntry) (w : World) :
  ∃ evs,
    sendFilesToBackend env l w = (Normal tt, after w evs 1) ∧
    quiet evs = true ∧
    network_requests evs =
      [HttpPost (BACKEND_URL +:+ "/sync-files")
                (FilesBody l (iso (clock env (ticks w))))].
Proof.
  unfold sendFilesToBackend, Date_toISOString, readClock, fetch_POST,
    response_json, after.
  unfold_async. cbn.
  destruct (fetch env _ _) as [e | response]; cbn.
  - eexists. rewrite <- !app_assoc. cbn. done.
  - destruct (ok response); cbn.
    + destruct (json response) as [e | result]; cbn;
        eexists; rewrite <- !app_assoc; cbn; done.
    + eexists. rewrite <- !app_assoc. cbn. done.
Qed.

(** A failed POST is logged and nothing else. *)
Lemma sendContactsToBackend_failure (data : list Contact) (w : World) :
  let url := BACKEND_URL +:+ "/sync-contacts" in
  let body := ContactsBody data (iso (clock env (ticks w))) in
  post_fails (fetch env url body) →
  ∃ err,
    sendContactsToBackend env data w =
      (Normal tt,
       after w [HttpPost url body;
                ConsoleError "Backend sync error for contacts:" err;
                ConsoleLog "Continuing with local storage only" None] 1).
Proof.
  intros url body Hfail. subst url body.
  unfold sendContactsToBackend, Date_toISOString, readClock, fetch_POST,
    response_json, after.
  unfold_async. cbn in *.
  destruct (fetch env _ _) as [e | response]; cbn in *.
  - exists e. by rewrite <- !app_assoc.
  - rewrite Hfail. cbn. eexists. by rewrite <- !app_assoc.
Qed.

(** *** The file listing *)

Lemma getFilesFromDirectory_run (directoryUri : string) (w : World) :
  ∃ l evs n,
    getFilesFromDirectory env directoryUri w =
      (Normal l, after w (FileInfoLookup directoryUri :: evs) n) ∧
    quiet evs = true ∧
    network_requests evs = [] ∧
    match getInfoAsync env directoryUri with
    | inl e =>
        l = [] ∧ evs = [ConsoleError "Error getting files:" e] ∧ n = 0%nat
    | inr fileInfo =>
        if info_exists fileInfo then
          evs = [] ∧
          ∃ mtime,
            l = [ {| uri := directoryUri;
                     name := pop (split directoryUri);
                     size := or_else (info_size fileInfo) 0;
                     modificationTime := mtime |} ]
        else l = [] ∧ evs = [] ∧ n = 0%nat
    end.
Proof.
  unfold getFilesFromDirectory, FileSystem_getInfoAsync, or_else_now,
    Date_now, readClock, after.
  unfold_async. cbn.
  destruct (getInfoAsync env directoryUri) as [e | fileInfo]; cbn.
  - exists [], [ConsoleError "Error getting files:" e], 0%nat.
    by rewrite <- app_assoc.
  - destruct (info_exists fileInfo); cbn.
    + destruct (info_modificationTime fileInfo) as [v |]; cbn;
        [destruct (v =? 0); cbn |].
      * eexists _, [], 1%nat. eauto 10.
      * eexists _, [], 0%nat. eauto 10.
      * eexists _, [], 1%nat. eauto 10.
    + by exists [], [], 0%nat.
Qed.

End HandlerFacts.

(** ** [split] and [pop] *)

Lemma string_app_assoc (a b c : string) :
  (a +:+ b) +:+ c = a +:+ b +:+ c.
Proof.
  induction a as [| x a IH]; [done |].
  change (String x ((a +:+ b) +:+ c) = String x (a +:+ b +:+ c)).
  by rewrite IH.
Qed.

Lemma split_nonempty (s : string) : split s ≠ [].
Proof.
  destruct s as [| c rest]; cbn; [done |].
  destruct (Ascii.eqb c "/"); [done |].
  destruct (split rest); done.
Qed.

Lemma join_split (s : string) : join (split s) = s.
Proof.
  induction s as [| c rest IH]; [done |].
  cbn [split]. destruct (Ascii.eqb c "/") eqn:Hc.
  - apply Ascii.eqb_eq in Hc as ->.
    pose proof (split_nonempty rest) as Hne.
    destruct (split rest) as [| piece pieces]; [done |].
    change (join ("" :: piece :: pieces))
      with (String "/" (join (piece :: pieces))).
    by rewrite IH.
  - pose proof (split_nonempty rest) as Hne.
    destruct (split rest) as [| piece pieces]; [done |].
    rewrite <- IH. by destruct pieces.
Qed.

Lemma split_no_slash (s : string) : Forall no_slash (split s).
Proof.
  induction s as [| c rest IH]; cbn [split].
  - constructor; [| constructor]. intros c Hc. cbn in Hc. by inversion Hc.
  - destruct (Ascii.eqb c "/") eqn:Hc.
    + constructor; [| done]. intros d Hd. cbn in Hd. by inversion Hd.
    + apply Ascii.eqb_neq in Hc.
      destruct (split rest) as [| piece pieces].
      * constructor; [| constructor].
        intros d Hd. cbn in Hd. apply list_elem_of_singleton in Hd.
        by subst.
      * inversion IH as [| ? ? Hpiece Hpieces]; subst.
        constructor; [| done].
        intros d Hd. cbn in Hd. apply elem_of_cons in Hd as [-> | Hd];
          [done | by apply Hpiece].
Qed.

Lemma join_last (a : list string) (seg : string) :
  last a = Some seg →
  join a = seg ∨ ∃ dir, join a = dir +:+ "/" +:+ seg.
Proof.
  induction a as [| x [| y a] IH]; intros Hlast.
  - done.
  - left. cbn in *. congruence.
  - right. destruct (IH Hlast) as [Heq | [dir Heq]].
    + exists x.
      change (join (x :: y :: a)) with (x +:+ "/" +:+ join (y :: a)).
      by rewrite Heq.
    + exists (x +:+ "/" +:+ dir).
      change (join (x :: y :: a)) with (x +:+ "/" +:+ join (y :: a)).
      rewrite Heq. by rewrite (string_app_assoc x), (string_app_assoc "/").
Qed.

(** [directoryUri.split('/').pop()] is the last segment of
    [directoryUri]. *)
Lemma pop_split_last_segment (s : string) :
  ∃ seg, pop (split s) = Some seg ∧ is_last_segment s seg.
Proof.
  unfold pop. destruct (last (split s)) as [seg |] eqn:Hlast.
  - exists seg. split; [done |]. split.
    + pose proof (split_no_slash s) as Hall.
      rewrite Forall_forall in Hall. apply Hall.
      by apply last_Some_elem_of.
    + pose proof (join_last _ _ Hlast) as Hjoin.
      by rewrite join_split in Hjoin.
  - apply last_None in Hlast. by apply split_nonempty in Hlast.
Qed.

Example pop_split_mock_folder :
  pop (split "file:///mock/folder") = Some "folder".
Proof. reflexivity. Qed.

(** ** The sync handlers *)

Local Arguments sendContactsToBackend : simpl never.
Local Arguments sendFilesToBackend : simpl never.
Local Arguments getFilesFromDirectory : simpl never.

(** Replaces a call of a sub-handler by what its run lemma gives. *)
Ltac run_sendContacts env evs Hquiet Hnet :=
  match goal with
  | |- context [sendContactsToBackend env ?d ?W] =>
      let Hrun := fresh "Hrun" in
      destruct (sendContactsToBackend_swallows env d W)
        as (evs & Hrun & Hquiet & Hnet);
      rewrite Hrun; clear Hrun
  end.

Ltac run_sendFiles env evs Hquiet Hnet :=
  match goal with
  | |- context [sendFilesToBackend env ?l ?W] =>
      let Hrun := fresh "Hrun" in
      destruct (sendFilesToBackend_swallows env l W)
        as (evs & Hrun & Hquiet & Hnet);
      rewrite Hrun; clear Hrun
  end.

Ltac run_getFiles env l evs n Hquiet Hnet Hcase :=
  match goal with
  | |- context [getFilesFromDirectory env ?u ?W] =>
      let Hrun := fresh "Hrun" in
      destruct (getFilesFromDirectory_run env u W)
        as (l & evs & n & Hrun & Hquiet & Hnet & Hcase);
      rewrite Hrun; clear Hrun
  end.

Ltac enter_syncContacts :=
  unfold syncContacts, Contacts_getContactsAsync;
  rewrite bool_decide_eq_true_2 by done;
  unfold_async; cbn.

Ltac finish_store :=
  unfold AsyncStorage_setItem, Date_toISOString, readClock, after;
  unfold_async; cbn.

Section Claims.

Variable env : Env.

(** C5.  When the captured permission is anything but [granted]
    ([denied], [undetermined] or the initial [null]), [syncContacts]
    returns after raising the "Permission Required" alert and does
    nothing else: the store (so [contacts_last_sync]) and the whole
    component state (so the contact list) are those of before, and the
    only event is the alert, so there is no contact read and no network
    request. *)
Theorem syncContacts_permission_required
    (contactsPermission : option PermissionStatus) (w : World) :
  contactsPermission ≠ Some granted →
  syncContacts env contactsPermission w =
    (Normal tt,
     after w [Alert "Permission Required"
                    "Please grant contacts permission first."] 0).
Proof.
  intros Hperm. unfold syncContacts.
  by rewrite bool_decide_eq_false_2.
Qed.

(** The run of [syncContacts] when the contact read throws: the [try]
    block stops at the read, the [catch] block runs in full and the
    [finally] block clears the loading flag. *)
Lemma syncContacts_read_throws_run (e : JsError) (w : World) :
  getContactsAsync env = inl e →
  syncContacts env (Some granted) w =
    (Normal tt,
     {| app :=
          {| s_contactsPermission := s_contactsPermission (app w);
             s_selectedFolderUri := s_selectedFolderUri (app w);
             s_contacts := s_contacts (app w);
             s_files := s_files (app w);
             s_isLoading := false;
             s_lastSyncTime := s_lastSyncTime (app w);
             s_syncStatus := "Contacts sync failed" |};
        storage := storage w;
        trace :=
          trace w ++
            [ContactsRead;
             ConsoleError "Error syncing contacts:" e;
             Alert "Sync Error"
                   ("Failed to sync contacts: " +:+ message e);
             SetTimeout 3000];
        ticks := ticks w |}).
Proof.
  intros Hread. enter_syncContacts. rewrite Hread. cbn.
  by rewrite <- !app_assoc.
Qed.

(** C4.  When the contact read throws [e], [syncContacts] writes
    nothing to the store and leaves the displayed last-sync time as it
    was, and the failure is surfaced: after the read and the log line
    comes the "Sync Error" alert with the message of [e], and the status
    ends as "Contacts sync failed". *)
Theorem syncContacts_read_throws (e : JsError) (w : World) :
  getContactsAsync env = inl e →
  ∃ w',
    syncContacts env (Some granted) w = (Normal tt, w') ∧
    storage w' = storage w ∧
    s_lastSyncTime (app w') = s_lastSyncTime (app w) ∧
    s_contacts (app w') = s_contacts (app w) ∧
    trace w' =
      trace w ++
        [ContactsRead;
         ConsoleError "Error syncing contacts:" e;
         Alert "Sync Error" ("Failed to sync contacts: " +:+ message e);
         SetTimeout 3000] ∧
    s_syncStatus (app w') = "Contacts sync failed".
Proof.
  intros Hread. rewrite (syncContacts_read_throws_run e w Hread).
  eexists. split; [reflexivity |]. by cbn.
Qed.

(** C1, as amended.  When the contact read succeeds, the POST to
    [/sync-contacts] throws or is answered outside 200-299, and the
    store accepts the write, [syncContacts] sets [contacts_last_sync] to
    the instant read after the submission and surfaces no error: the
    remote failure is only logged, no alert is raised, and the status
    ends as the success message. *)
Theorem syncContacts_remote_failure_is_silent
    (data : list Contact) (w : World) :
  let now := iso (clock env (S (ticks w))) in
  let body := ContactsBody data (iso (clock env (ticks w))) in
  getContactsAsync env = inr data →
  post_fails (fetch env (BACKEND_URL +:+ "/sync-contacts") body) →
  setItem env STORAGE_KEYS.CONTACTS_LAST_SYNC now = None →
  timestamp_updated_silently env w (syncContacts env (Some granted) w) ∧
  ∃ w' err,
    syncContacts env (Some granted) w = (Normal tt, w') ∧
    storage w' = <[STORAGE_KEYS.CONTACTS_LAST_SYNC := now]> (storage w) ∧
    s_lastSyncTime (app w') = Some now ∧
    s_contacts (app w') = data ∧
    s_syncStatus (app w') = "Contacts synced successfully!" ∧
    trace w' =
      trace w ++
        [ContactsRead;
         HttpPost (BACKEND_URL +:+ "/sync-contacts") body;
         ConsoleError "Backend sync error for contacts:" err;
         ConsoleLog "Continuing with local storage only" None;
         StorageWrite STORAGE_KEYS.CONTACTS_LAST_SYNC now;
         SetTimeout 3000].
Proof.
  intros now body Hread Hfail Hstore.
  assert (∃ w' err,
    syncContacts env (Some granted) w = (Normal tt, w') ∧
    storage w' = <[STORAGE_KEYS.CONTACTS_LAST_SYNC := now]> (storage w) ∧
    s_lastSyncTime (app w') = Some now ∧
    s_contacts (app w') = data ∧
    s_syncStatus (app w') = "Contacts synced successfully!" ∧
    trace w' =
      trace w ++
        [ContactsRead;
         HttpPost (BACKEND_URL +:+ "/sync-contacts") body;
         ConsoleError "Backend sync error for contacts:" err;
         ConsoleLog "Continuing with local storage only" None;
         StorageWrite STORAGE_KEYS.CONTACTS_LAST_SYNC now;
         SetTimeout 3000]) as Hrun.
  { enter_syncContacts. rewrite Hread. cbn.
    match goal with
    | |- context [sendContactsToBackend env ?d ?W] =>
        destruct (sendContactsToBackend_failure env d W Hfail)
          as [err Hsend]; rewrite Hsend; clear Hsend
    end.
    finish_store. fold now. rewrite Hstore. cbn.
    eexists _, err. split; [reflexivity |]. cbn.
    by rewrite <- !app_assoc. }
  split; [| exact Hrun].
  destruct Hrun as (w' & err & -> & Hsto & _ & _ & _ & Htrace).
  eexists. cbn. split; [done |]. split; [| split; [exact Htrace | done]].
  rewrite Hsto. apply lookup_insert_eq.
Qed.

(** *** Files *)

Ltac enter_syncFiles Htruthy :=
  unfold syncFiles; rewrite Htruthy; unfold_async; cbn.

(** C6.  With no folder handle captured ([null] or the empty string),
    [syncFiles] returns after raising the "Folder Required" alert and
    does nothing else: the store (so [files_last_sync]) and the whole
    component state (so the file list) are those of before, and the only
    event is the alert, so there is no file-info lookup and no network
    request. *)
Theorem syncFiles_folder_required
    (selectedFolderUri : option string) (w : World) :
  truthy selectedFolderUri = false →
  syncFiles env selectedFolderUri w =
    (Normal tt,
     after w [Alert "Folder Required" "Please select a folder first."] 0).
Proof.
  intros Hfolder. unfold syncFiles. by rewrite Hfolder.
Qed.

(** C8.  When the file-info lookup reports that the handle exists, the
    listing is exactly one entry, for the handle itself, whose name is
    the last '/'-separated segment of the handle. *)
Theorem getFilesFromDirectory_single_entry
    (directoryUri : string) (fileInfo : FileInfo) (w : World) :
  getInfoAsync env directoryUri = inr fileInfo →
  info_exists fileInfo = true →
  ∃ entry w' seg,
    getFilesFromDirectory env directoryUri w = (Normal [entry], w') ∧
    uri entry = directoryUri ∧
    name entry = Some seg ∧
    is_last_segment directoryUri seg.
Proof.
  intros Hinfo Hexists.
  destruct (getFilesFromDirectory_run env directoryUri w)
    as (l & evs & n & Hrun & _ & _ & Hcase).
  rewrite Hinfo, Hexists in Hcase. destruct Hcase as (_ & mtime & ->).
  destruct (pop_split_last_segment directoryUri) as (seg & Hpop & Hseg).
  eexists _, _, seg. split; [exact Hrun |]. by cbn.
Qed.

(** C10.  [getFilesFromDirectory] always returns a list and never
    throws; the list is empty when the lookup throws and when it reports
    that the location does not exist, and has one entry otherwise. *)
Theorem getFilesFromDirectory_total (directoryUri : string) (w : World) :
  ∃ l w',
    getFilesFromDirectory env directoryUri w = (Normal l, w') ∧
    match getInfoAsync env directoryUri with
    | inl _ => l = []
    | inr fileInfo =>
        if info_exists fileInfo then length l = 1%nat else l = []
    end.
Proof.
  destruct (getFilesFromDirectory_run env directoryUri w)
    as (l & evs & n & Hrun & _ & _ & Hcase).
  exists l. eexists. split; [exact Hrun |].
  destruct (getInfoAsync env directoryUri) as [e | fileInfo].
  - by destruct Hcase.
  - destruct (info_exists fileInfo).
    + by destruct Hcase as (_ & mtime & ->).
    + by destruct Hcase.
Qed.

(** The listing is what [syncFiles] shows: under the hypotheses of C8
    the file list of the component ends as that single entry. *)
Lemma syncFiles_shows_single_entry
    (directoryUri : string) (fileInfo : FileInfo) (w : World) :
  truthy (Some directoryUri) = true →
  getInfoAsync env directoryUri = inr fileInfo →
  info_exists fileInfo = true →
  ∃ entry seg,
    s_files (app (syncFiles env (Some directoryUri) w).2) = [entry] ∧
    name entry = Some seg ∧
    is_last_segment directoryUri seg.
Proof.
  intros Htruthy Hinfo Hexists.
  destruct (pop_split_last_segment directoryUri) as (seg & Hpop & Hseg).
  enter_syncFiles Htruthy.
  run_getFiles env l evs n Hquiet Hnet Hcase.
  rewrite Hinfo, Hexists in Hcase. destruct Hcase as (-> & mtime & ->).
  unfold after. cbn.
  run_sendFiles env sent Hsent Hpost.
  finish_store.
  destruct (setItem env _ _); cbn; eexists _, seg; by cbn.
Qed.

(** *** No handler lets an exception escape *)

Lemma syncContacts_completes
    (contactsPermission : option PermissionStatus) (w : World) :
  ∃ w', syncContacts env contactsPermission w = (Normal tt, w').
Proof.
  unfold syncContacts, Contacts_getContactsAsync.
  case_bool_decide; cbn; [| by eexists].
  unfold_async. cbn.
  destruct (getContactsAsync env) as [e | data]; cbn; [by eexists |].
  run_sendContacts env sent Hsent Hpost.
  finish_store.
  destruct (setItem env _ _); cbn; by eexists.
Qed.

(** Past its guard [syncFiles] starts with the file-info lookup. *)
Lemma syncFiles_attempts (directoryUri : string) (w : World) :
  truthy (Some directoryUri) = true →
  ∃ w' evs,
    syncFiles env (Some directoryUri) w = (Normal tt, w') ∧
    trace w' = trace w ++ FileInfoLookup directoryUri :: evs.
Proof.
  intros Htruthy. enter_syncFiles Htruthy.
  run_getFiles env l evs n Hquiet Hnet Hcase. clear Hcase.
  unfold after. cbn.
  run_sendFiles env sent Hsent Hpost.
  finish_store.
  destruct (setItem env _ _); cbn; eexists _, _;
    (split; [reflexivity |]); cbn;
    rewrite <- !app_assoc; cbn; reflexivity.
Qed.

Lemma syncFiles_completes (selectedFolderUri : option string) (w : World) :
  ∃ w', syncFiles env selectedFolderUri w = (Normal tt, w').
Proof.
  destruct (truthy selectedFolderUri) eqn:Htruthy.
  - destruct selectedFolderUri as [directoryUri |]; [| done].
    destruct (syncFiles_attempts directoryUri w Htruthy)
      as (w' & _ & Hrun & _).
    by exists w'.
  - unfold syncFiles. rewrite Htruthy. by eexists.
Qed.

Lemma performAutoSync_completes
    (contactsPermission : option PermissionStatus)
    (selectedFolderUri : option string) (w : World) :
  ∃ w',
    performAutoSync env contactsPermission selectedFolderUri w =
      (Normal tt, w').
Proof.
  unfold performAutoSync, try_catch, mbind, Async_bind, bind.
  assert (∃ w1,
    (if bool_decide (contactsPermission = Some granted)
     then syncContacts env contactsPermission else ret tt) w =
      (Normal tt, w1)) as [w1 ->].
  { case_bool_decide; [apply syncContacts_completes | by eexists]. }
  destruct (truthy selectedFolderUri).
  - destruct (syncFiles_completes selectedFolderUri w1) as [w2 ->].
    by eexists.
  - by eexists.
Qed.

(** C7.  With a permission other than [granted] (in particular
    [denied]) and no folder handle, [performAutoSync] skips both
    sub-syncs: it returns with the world as it was, so without any
    event, hence without a contact read, a file-info lookup or a
    network request. *)
Theorem performAutoSync_nothing_to_do
    (contactsPermission : option PermissionStatus)
    (selectedFolderUri : option string) (w : World) :
  contactsPermission ≠ Some granted →
  truthy selectedFolderUri = false →
  performAutoSync env contactsPermission selectedFolderUri w =
    (Normal tt, w) ∧
  ∃ evs,
    trace (performAutoSync env contactsPermission selectedFolderUri w).2 =
      trace w ++ evs ∧
    local_reads evs = [] ∧
    network_requests evs = [].
Proof.
  intros Hperm Hfolder.
  assert (performAutoSync env contactsPermission selectedFolderUri w =
            (Normal tt, w)) as Hrun.
  { unfold performAutoSync. rewrite Hfolder.
    by rewrite bool_decide_eq_false_2. }
  split; [exact Hrun |].
  exists []. rewrite Hrun. by rewrite app_nil_r.
Qed.

(** C9.  When the picker resolves to a cancelled result, or to one
    without assets, [selectFolder] returns with the store (so
    [folder_uri]) and the component state (so the selected folder) as
    they were; its only event is the call of the picker, so no file
    sync is started. *)
Theorem selectFolder_cancelled
    (selectedFolderUri : option string) (result : PickerResult)
    (w : World) :
  getDocumentAsync env = inr result →
  canceled result = true ∨ assets result = None ∨ assets result = Some [] →
  selectFolder env selectedFolderUri w =
    (Normal tt, after w [DocumentPick] 0).
Proof.
  intros Hpick Hcancel.
  unfold selectFolder, DocumentPicker_getDocumentAsync.
  unfold_async. cbn. rewrite Hpick. cbn.
  destruct Hcancel as [-> | [Hassets | Hassets]]; [done | |];
    rewrite Hassets; by destruct (canceled result).
Qed.

End Claims.

(** ** The claims on concrete platforms *)

(** C1 as stated fails when the store rejects the write: the contacts are
    read, the backend answers 500, and then [AsyncStorage.setItem] throws
    inside the [try] block, so the [catch] block raises the "Sync Error"
    alert and [contacts_last_sync] stays absent. *)
Lemma syncContacts_store_rejects_counterexample :
  let r := syncContacts env_store_rejects (Some granted) w0 in
  getContactsAsync env_store_rejects = inr [ann] ∧
  post_fails
    (fetch env_store_rejects (BACKEND_URL +:+ "/sync-contacts")
       (ContactsBody [ann] (iso (clock env_store_rejects (ticks w0))))) ∧
  storage r.2 !! STORAGE_KEYS.CONTACTS_LAST_SYNC = None ∧
  Alert "Sync Error" "Failed to sync contacts: database or disk is full"
    ∈ trace r.2 ∧
  s_syncStatus (app r.2) = "Contacts sync failed" ∧
  ¬ timestamp_updated_silently env_store_rejects w0 r.
Proof.
  intros r. split; [reflexivity |]. split; [reflexivity |].
  split; [by vm_compute |].
  split; [vm_compute; repeat constructor |].
  split; [by vm_compute |].
  intros (evs & _ & Hstore & _). vm_compute in Hstore. discriminate Hstore.
Qed.

Lemma syncContacts_remote_failure_is_silent_witness :
  getContactsAsync env_backend_500 = inr [ann] ∧
  post_fails
    (fetch env_backend_500 (BACKEND_URL +:+ "/sync-contacts")
       (ContactsBody [ann] (iso (clock env_backend_500 (ticks w0))))) ∧
  setItem env_backend_500 STORAGE_KEYS.CONTACTS_LAST_SYNC
    (iso (clock env_backend_500 (S (ticks w0)))) = None ∧
  timestamp_updated_silently env_backend_500 w0
    (syncContacts env_backend_500 (Some granted) w0).
Proof.
  split; [reflexivity |]. split; [reflexivity |]. split; [reflexivity |].
  apply (syncContacts_remote_failure_is_silent env_backend_500 [ann] w0);
    reflexivity.
Defined.

(** C2 as stated fails: the file-info lookup of the selected folder
    throws, and [syncFiles] ends with the success status, without any
    alert, and with [files_last_sync] written. *)
Lemma syncFiles_info_throws_counterexample :
  let r := syncFiles env_reads_throw (Some mock_folder) w0 in
  getInfoAsync env_reads_throw mock_folder =
    inl {| message := "permission denied" |} ∧
  s_syncStatus (app r.2) = "Files synced successfully!" ∧
  quiet (trace r.2) = true ∧
  storage r.2 !! STORAGE_KEYS.FILES_LAST_SYNC =
    Some "2023-11-14T22:13:20.001Z" ∧
  ¬ files_sync_failed w0 {| message := "permission denied" |} r.
Proof.
  intros r. split; [reflexivity |].
  split; [by vm_compute |]. split; [by vm_compute |].
  split; [by vm_compute |].
  intros (Hstatus & _). vm_compute in Hstatus. discriminate Hstatus.
Qed.

Lemma syncContacts_read_throws_witness :
  getContactsAsync env_reads_throw =
    inl {| message := "contacts unavailable" |} ∧
  ∃ w',
    syncContacts env_reads_throw (Some granted) w0 = (Normal tt, w') ∧
    storage w' = storage w0 ∧
    s_syncStatus (app w') = "Contacts sync failed".
Proof.
  split; [reflexivity |].
  destruct (syncContacts_read_throws env_reads_throw
              {| message := "contacts unavailable" |} w0 eq_refl)
    as (w' & Hrun & Hstore & _ & _ & _ & Hstatus).
  by exists w'.
Defined.

Lemma syncContacts_permission_required_witness :
  Some denied ≠ Some granted ∧
  syncContacts env_backend_500 (Some denied) w0 =
    (Normal tt,
     after w0 [Alert "Permission Required"
                     "Please grant contacts permission first."] 0).
Proof.
  split; [discriminate |].
  apply (syncContacts_permission_required env_backend_500 (Some denied) w0).
  discriminate.
Defined.

Lemma syncFiles_folder_required_witness :
  truthy None = false ∧
  syncFiles env_backend_500 None w0 =
    (Normal tt,
     after w0 [Alert "Folder Required" "Please select a folder first."] 0).
Proof.
  split; [reflexivity |].
  apply (syncFiles_folder_required env_backend_500 None w0). reflexivity.
Defined.

Lemma performAutoSync_nothing_to_do_witness :
  Some denied ≠ Some granted ∧
  truthy None = false ∧
  performAutoSync env_backend_500 (Some denied) None w0 = (Normal tt, w0).
Proof.
  split; [discriminate |]. split; [reflexivity |].
  apply (performAutoSync_nothing_to_do env_backend_500 (Some denied) None w0);
    [discriminate | reflexivity].
Defined.

Lemma getFilesFromDirectory_single_entry_witness :
  info_exists
    {| info_exists := true; info_size := Some 4096;
       info_modificationTime := Some 1699999999000 |} = true ∧
  ∃ entry w' seg,
    getFilesFromDirectory env_backend_500 mock_folder w0 =
      (Normal [entry], w') ∧
    uri entry = mock_folder ∧
    name entry = Some seg ∧
    is_last_segment mock_folder seg.
Proof.
  split; [reflexivity |].
  apply (getFilesFromDirectory_single_entry env_backend_500 mock_folder
           {| info_exists := true; info_size := Some 4096;
              info_modificationTime := Some 1699999999000 |} w0);
    reflexivity.
Defined.

Lemma selectFolder_cancelled_witness :
  getDocumentAsync env_backend_500 =
    inr {| canceled := true; assets := None |} ∧
  selectFolder env_backend_500 (Some mock_folder) w0 =
    (Normal tt, after w0 [DocumentPick] 0).
Proof.
  split; [reflexivity |].
  apply (selectFolder_cancelled env_backend_500 (Some mock_folder)
           {| canceled := true; assets := None |} w0);
    [reflexivity | by left].
Defined.

(** The scenario of the listing: permission denied, folder
    ["file:///mock/folder"]. *)
Example mock_folder_listing :
  s_files (app (performAutoSync env_backend_500 (Some denied)
                  (Some mock_folder) w0).2) =
    [ {| uri := "file:///mock/folder"; name := Some "folder";
         size := 4096; modificationTime := 1699999999000 |} ].
Proof. by vm_compute. Qed.

(** * Further properties of the handlers *)

(** ** What a run looks like, for every answer of the platform *)

Lemma is_log_quiet (logs : list Event) :
  forallb is_log logs = true → quiet logs = true.
Proof.
  unfold quiet. induction logs as [| e logs IH]; [done |].
  cbn. intros [He Hlogs]%andb_prop. rewrite (IH Hlogs).
  by destruct e.
Qed.

Lemma is_log_no_alerts (logs : list Event) :
  forallb is_log logs = true → alerts logs = [].
Proof.
  unfold alerts. induction logs as [| e logs IH]; [done |].
  cbn [forallb]. intros [He Hlogs]%andb_prop.
  rewrite filter_cons_False; [by apply IH |]. by destruct e.
Qed.

Lemma is_log_no_local_reads (logs : list Event) :
  forallb is_log logs = true → local_reads logs = [].
Proof.
  unfold local_reads. induction logs as [| e logs IH]; [done |].
  cbn [forallb]. intros [He Hlogs]%andb_prop.
  rewrite filter_cons_False; [by apply IH |]. by destruct e.
Qed.

Lemma is_log_no_network_requests (logs : list Event) :
  forallb is_log logs = true → network_requests logs = [].
Proof.
  unfold network_requests. induction logs as [| e logs IH]; [done |].
  cbn [forallb]. intros [He Hlogs]%andb_prop.
  rewrite filter_cons_False; [by apply IH |]. by destruct e.
Qed.

Section Runs.

Variable env : Env.

Lemma sendContactsToBackend_events (data : list Contact) (w : World) :
  ∃ logs,
    sendContactsToBackend env data w =
      (Normal tt,
       after w (HttpPost (BACKEND_URL +:+ "/sync-contacts")
                  (ContactsBody data (iso (clock env (ticks w)))) :: logs)
             1) ∧
    forallb is_log logs = true.
Proof.
  unfold sendContactsToBackend, Date_toISOString, readClock, fetch_POST,
    response_json, after.
  unfold_async. cbn.
  destruct (fetch env _ _) as [e | response]; cbn.
  - eexists [_; _]. by rewrite <- !app_assoc.
  - destruct (ok response); cbn.
    + destruct (json response) as [e | result]; cbn;
        [eexists [_; _] | eexists [_]]; by rewrite <- !app_assoc.
    + eexists [_; _]. by rewrite <- !app_assoc.
Qed.

Lemma sendFilesToBackend_events (l : list FileEntry) (w : World) :
  ∃ logs,
    sendFilesToBackend env l w =
      (Normal tt,
       after w (HttpPost (BACKEND_URL +:+ "/sync-files")
                  (FilesBody l (iso (clock env (ticks w)))) :: logs)
             1) ∧
    forallb is_log logs = true.
Proof.
  unfold sendFilesToBackend, Date_toISOString, readClock, fetch_POST,
    response_json, after.
  unfold_async. cbn.
  destruct (fetch env _ _) as [e | response]; cbn.
  - eexists [_; _]. by rewrite <- !app_assoc.
  - destruct (ok response); cbn.
    + destruct (json response) as [e | result]; cbn;
        [eexists [_; _] | eexists [_]]; by rewrite <- !app_assoc.
    + eexists [_; _]. by rewrite <- !app_assoc.
Qed.

(** The three ways [syncContacts] ends once the permission is granted:
    the read throws; the store accepts the timestamp; the store rejects
    it. *)
Lemma syncContacts_run (w : World) :
  ∃ logs,
    forallb is_log logs = true ∧
    syncContacts env (Some granted) w =
      (Normal tt,
       match getContactsAsync env with
       | inl e =>
           {| app := settled (app w) "Contacts sync failed";
              storage := storage w;
              trace :=
                trace w ++
                  [ContactsRead;
                   ConsoleError "Error syncing contacts:" e;
                   Alert "Sync Error"
                         ("Failed to sync contacts: " +:+ message e);
                   SetTimeout 3000];
              ticks := ticks w |}
       | inr data =>
           let now := iso (clock env (S (ticks w))) in
           let posted :=
             HttpPost (BACKEND_URL +:+ "/sync-contacts")
               (ContactsBody data (iso (clock env (ticks w)))) in
           match setItem env STORAGE_KEYS.CONTACTS_LAST_SYNC now with
           | None =>
               {| app :=
                    settled
                      (with_lastSyncTime (with_contacts (app w) data)
                         (Some now))
                      "Contacts synced successfully!";
                  storage :=
                    <[STORAGE_KEYS.CONTACTS_LAST_SYNC := now]> (storage w);
                  trace :=
                    trace w ++
                      ContactsRead :: posted :: logs ++
                      [StorageWrite STORAGE_KEYS.CONTACTS_LAST_SYNC now;
                       SetTimeout 3000];
                  ticks := 2 + ticks w |}
           | Some e =>
               {| app :=
                    settled (with_contacts (app w) data)
                            "Contacts sync failed";
                  storage := storage w;
                  trace :=
                    trace w ++
                      ContactsRead :: posted :: logs ++
                      [StorageWrite STORAGE_KEYS.CONTACTS_LAST_SYNC now;
                       ConsoleError "Error syncing contacts:" e;
                       Alert "Sync Error"
                             ("Failed to sync contacts: " +:+ message e);
                       SetTimeout 3000];
                  ticks := 2 + ticks w |}
           end
       end).
Proof.
  destruct (getContactsAsync env) as [e | data] eqn:Hread.
  - exists []. split; [done |].
    by rewrite (syncContacts_read_throws_run env e w Hread).
  - enter_syncContacts. rewrite Hread. cbn.
    match goal with
    | |- context [sendContactsToBackend env ?d ?W] =>
        destruct (sendContactsToBackend_events d W) as (logs & -> & Hlogs)
    end.
    exists logs. split; [done |].
    finish_store. unfold settled, with_lastSyncTime, with_contacts. cbn.
    destruct (setItem env _ _); cbn;
      by rewrite <- !app_assoc.
Qed.

(** What [getFilesFromDirectory] returns and logs depends on the world
    only through the clock. *)
Lemma getFilesFromDirectory_events (directoryUri : string) (t : nat) :
  ∃ l logs n,
    forallb is_log logs = true ∧
    ∀ w, ticks w = t →
      getFilesFromDirectory env directoryUri w =
        (Normal l, after w (FileInfoLookup directoryUri :: logs) n).
Proof.
  unfold getFilesFromDirectory, FileSystem_getInfoAsync, or_else_now,
    Date_now, readClock, after.
  unfold_async. cbn.
  destruct (getInfoAsync env directoryUri) as [e | fileInfo]; cbn.
  - exists [], [ConsoleError "Error getting files:" e], 0%nat.
    split; [done |]. intros w _. by rewrite <- app_assoc.
  - destruct (info_exists fileInfo); cbn.
    + set (entry := fun mtime =>
             {| uri := directoryUri; name := pop (split directoryUri);
                size := or_else (info_size fileInfo) 0;
                modificationTime := mtime |}).
      destruct (info_modificationTime fileInfo) as [v |]; cbn;
        [destruct (v =? 0); cbn |].
      * exists [entry (millis (clock env t))], [], 1%nat.
        split; [done |]. by intros w ->.
      * exists [entry v], [], 0%nat. split; [done |]. by intros w _.
      * exists [entry (millis (clock env t))], [], 1%nat.
        split; [done |]. by intros w ->.
    + exists [], [], 0%nat. split; [done |]. by intros w _.
Qed.

(** The two ways [syncFiles] ends once a folder is captured: the store
    accepts the timestamp, or rejects it.  The listing is the one
    [getFilesFromDirectory] gives in the same world. *)
Lemma syncFiles_run (directoryUri : string) (w : World) :
  truthy (Some directoryUri) = true →
  ∃ l logs1 n logs2,
    forallb is_log logs1 = true ∧
    forallb is_log logs2 = true ∧
    (getFilesFromDirectory env directoryUri w).1 = Normal l ∧
    syncFiles env (Some directoryUri) w =
      (Normal tt,
       let now := iso (clock env (S (n + ticks w))) in
       let posted :=
         HttpPost (BACKEND_URL +:+ "/sync-files")
           (FilesBody l (iso (clock env (n + ticks w)))) in
       match setItem env STORAGE_KEYS.FILES_LAST_SYNC now with
       | None =>
           {| app :=
                settled (with_files (app w) l) "Files synced successfully!";
              storage :=
                <[STORAGE_KEYS.FILES_LAST_SYNC := now]> (storage w);
              trace :=
                trace w ++
                  FileInfoLookup directoryUri :: logs1 ++
                  posted :: logs2 ++
                  [StorageWrite STORAGE_KEYS.FILES_LAST_SYNC now;
                   SetTimeout 3000];
              ticks := 2 + (n + ticks w) |}
       | Some e =>
           {| app := settled (with_files (app w) l) "Files sync failed";
              storage := storage w;
              trace :=
                trace w ++
                  FileInfoLookup directoryUri :: logs1 ++
                  posted :: logs2 ++
                  [StorageWrite STORAGE_KEYS.FILES_LAST_SYNC now;
                   ConsoleError "Error syncing files:" e;
                   Alert "Sync Error"
                         ("Failed to sync files: " +:+ message e);
                   SetTimeout 3000];
              ticks := 2 + (n + ticks w) |}
       end).
Proof.
  intros Htruthy.
  destruct (getFilesFromDirectory_events directoryUri (ticks w))
    as (l & logs1 & n & Hlogs1 & Hget).
  unfold syncFiles. rewrite Htruthy. unfold_async. cbn.
  rewrite !Hget by done. unfold after at 1 2. cbn.
  match goal with
  | |- context [sendFilesToBackend env ?d ?W] =>
      destruct (sendFilesToBackend_events d W) as (logs2 & -> & Hlogs2)
  end.
  exists l, logs1, n, logs2.
  split; [done |]. split; [done |]. split; [done |].
  finish_store. unfold settled, with_files. cbn.
  destruct (setItem env _ _); cbn;
    by rewrite <- !app_assoc.
Qed.

(** The same, with the timestamp named: it is [files_stamp], and the
    envelope of the POST carries the reading of the clock just before. *)
Lemma syncFiles_run_stamp (directoryUri : string) (w : World) :
  truthy (Some directoryUri) = true →
  ∃ l logs1 logs2,
    forallb is_log logs1 = true ∧
    forallb is_log logs2 = true ∧
    (getFilesFromDirectory env directoryUri w).1 = Normal l ∧
    trace (getFilesFromDirectory env directoryUri w).2 =
      trace w ++ FileInfoLookup directoryUri :: logs1 ∧
    syncFiles env (Some directoryUri) w =
      (Normal tt,
       let t := ticks (getFilesFromDirectory env directoryUri w).2 in
       let now := files_stamp env directoryUri w in
       let posted :=
         HttpPost (BACKEND_URL +:+ "/sync-files")
           (FilesBody l (iso (clock env t))) in
       match setItem env STORAGE_KEYS.FILES_LAST_SYNC now with
       | None =>
           {| app :=
                settled (with_files (app w) l) "Files synced successfully!";
              storage :=
                <[STORAGE_KEYS.FILES_LAST_SYNC := now]> (storage w);
              trace :=
                trace w ++
                  FileInfoLookup directoryUri :: logs1 ++
                  posted :: logs2 ++
                  [StorageWrite STORAGE_KEYS.FILES_LAST_SYNC now;
                   SetTimeout 3000];
              ticks := 2 + t |}
       | Some e =>
           {| app := settled (with_files (app w) l) "Files sync failed";
              storage := storage w;
              trace :=
                trace w ++
                  FileInfoLookup directoryUri :: logs1 ++
                  posted :: logs2 ++
                  [StorageWrite STORAGE_KEYS.FILES_LAST_SYNC now;
                   ConsoleError "Error syncing files:" e;
                   Alert "Sync Error"
                         ("Failed to sync files: " +:+ message e);
                   SetTimeout 3000];
              ticks := 2 + t |}
       end).
Proof.
  intros Htruthy.
  destruct (getFilesFromDirectory_events directoryUri (ticks w))
    as (l & logs1 & n & Hlogs1 & Hget).
  unfold files_stamp, syncFiles. rewrite Htruthy. unfold_async. cbn.
  rewrite !Hget by done. unfold after at 1 2 3 4. cbn.
  match goal with
  | |- context [sendFilesToBackend env ?d ?W] =>
      destruct (sendFilesToBackend_events d W) as (logs2 & -> & Hlogs2)
  end.
  exists l, logs1, logs2.
  split; [done |]. split; [done |]. split; [done |]. split; [done |].
  finish_store. unfold settled, with_files. cbn.
  destruct (setItem env _ _); cbn;
    by rewrite <- !app_assoc.
Qed.

End Runs.

(** ** The remote submission *)

Lemma alerts_app (xs ys : list Event) :
  alerts (xs ++ ys) = alerts xs ++ alerts ys.
Proof. unfold alerts. apply filter_app. Qed.

Lemma alerts_cons (e : Event) (evs : list Event) :
  alerts (e :: evs) = (if is_alert e then [e] else []) ++ alerts evs.
Proof.
  unfold alerts. rewrite filter_cons.
  destruct (is_alert e); by case_decide.
Qed.

Lemma local_reads_app (xs ys : list Event) :
  local_reads (xs ++ ys) = local_reads xs ++ local_reads ys.
Proof. unfold local_reads. apply filter_app. Qed.

Lemma network_requests_app (xs ys : list Event) :
  network_requests (xs ++ ys) = network_requests xs ++ network_requests ys.
Proof. unfold network_requests. apply filter_app. Qed.

(** Splits the filtered log of a run into its pieces and removes the
    console lines. *)
Ltac sift Hlogs :=
  rewrite ?alerts_app, ?local_reads_app, ?network_requests_app;
  repeat first
    [ rewrite (is_log_no_alerts _ Hlogs)
    | rewrite (is_log_no_local_reads _ Hlogs)
    | rewrite (is_log_no_network_requests _ Hlogs) ].

Section Submission.

Variable env : Env.

(** X1.  Whatever the backend answers, [sendContactsToBackend] returns
    normally, leaves the component state and the store as they are,
    raises no alert, and sends exactly one POST to [/sync-contacts], which
    carries the contacts it was given. *)
Theorem sendContactsToBackend_best_effort
    (data : list Contact) (w : World) :
  ∃ evs,
    sendContactsToBackend env data w = (Normal tt, after w evs 1) ∧
    alerts evs = [] ∧
    local_reads evs = [] ∧
    network_requests evs =
      [HttpPost (BACKEND_URL +:+ "/sync-contacts")
         (ContactsBody data (iso (clock env (ticks w))))].
Proof.
  destruct (sendContactsToBackend_events env data w)
    as (logs & Hrun & Hlogs).
  eexists. split; [exact Hrun |].
  change (?x :: logs) with ([x] ++ logs).
  sift Hlogs. by sift Hlogs.
Qed.

(** X2.  The same for [sendFilesToBackend] and [/sync-files]: one POST
    with the listing it was given, also when the listing is empty. *)
Theorem sendFilesToBackend_best_effort (l : list FileEntry) (w : World) :
  ∃ evs,
    sendFilesToBackend env l w = (Normal tt, after w evs 1) ∧
    alerts evs = [] ∧
    local_reads evs = [] ∧
    network_requests evs =
      [HttpPost (BACKEND_URL +:+ "/sync-files")
         (FilesBody l (iso (clock env (ticks w))))].
Proof.
  destruct (sendFilesToBackend_events env l w) as (logs & Hrun & Hlogs).
  eexists. split; [exact Hrun |].
  change (?x :: logs) with ([x] ++ logs).
  sift Hlogs. by sift Hlogs.
Qed.

(** X3.  A 2xx answer whose body cannot be parsed is handled like a
    failed POST: the parse error is logged and the handler returns. *)
Theorem sendContactsToBackend_bad_json
    (data : list Contact) (response : Response) (e : JsError) (w : World) :
  let url := BACKEND_URL +:+ "/sync-contacts" in
  let body := ContactsBody data (iso (clock env (ticks w))) in
  fetch env url body = inr response →
  ok response = true →
  json response = inl e →
  sendContactsToBackend env data w =
    (Normal tt,
     after w [HttpPost url body;
              ConsoleError "Backend sync error for contacts:" e;
              ConsoleLog "Continuing with local storage only" None] 1).
Proof.
  intros url body Hfetch Hok Hjson. subst url body.
  unfold sendContactsToBackend, Date_toISOString, readClock, fetch_POST,
    response_json, after.
  unfold_async. cbn in *. rewrite Hfetch. cbn. rewrite Hok. cbn.
  rewrite Hjson. cbn. by rewrite <- !app_assoc.
Qed.

End Submission.

(** ** Failures inside a sync *)

Section Failures.

Variable env : Env.

(** C2, as amended.  When a folder handle is set and the file-info
    lookup throws [e], [getFilesFromDirectory] logs [e] and gives the
    empty listing; [syncFiles] shows that empty listing and submits it
    in its one POST to [/sync-files].  The failed lookup marks nothing
    failed and raises no alert: the run ends as the write of the
    timestamp decides.  When the store accepts it, [files_last_sync] is
    the instant read after the submission, the status is the success
    message and there is no alert; when the store rejects it with [e'],
    the store is unchanged, the status is "Files sync failed" and the
    only alert carries the message of [e']. *)
Theorem syncFiles_info_throws_is_swallowed
    (directoryUri : string) (e : JsError) (w : World) :
  let now := iso (clock env (S (ticks w))) in
  let posted :=
    HttpPost (BACKEND_URL +:+ "/sync-files")
      (FilesBody [] (iso (clock env (ticks w)))) in
  truthy (Some directoryUri) = true →
  getInfoAsync env directoryUri = inl e →
  ∃ w' evs,
    syncFiles env (Some directoryUri) w = (Normal tt, w') ∧
    trace w' =
      trace w ++
        [FileInfoLookup directoryUri;
         ConsoleError "Error getting files:" e] ++ evs ∧
    s_files (app w') = [] ∧
    network_requests evs = [posted] ∧
    local_reads evs = [] ∧
    match setItem env STORAGE_KEYS.FILES_LAST_SYNC now with
    | None =>
        storage w' = <[STORAGE_KEYS.FILES_LAST_SYNC := now]> (storage w) ∧
        s_syncStatus (app w') = "Files synced successfully!" ∧
        quiet evs = true
    | Some e' =>
        storage w' = storage w ∧
        s_syncStatus (app w') = "Files sync failed" ∧
        alerts evs =
          [Alert "Sync Error" ("Failed to sync files: " +:+ message e')]
    end.
Proof.
  intros now posted Htruthy Hinfo.
  destruct (syncFiles_run_stamp env directoryUri w Htruthy)
    as (l & logs1 & logs2 & Hlogs1 & Hlogs2 & Hlist & Htrace & Hrun).
  destruct (getFilesFromDirectory_run env directoryUri w)
    as (l0 & evs0 & n0 & Hget & _ & _ & Hcase).
  rewrite Hinfo in Hcase. destruct Hcase as (-> & -> & ->).
  unfold files_stamp in Hrun. rewrite Hget in Hlist, Htrace, Hrun.
  cbn in Hlist, Htrace, Hrun.
  injection Hlist as <-.
  apply app_inv_head in Htrace. injection Htrace as <-.
  fold now posted in Hrun. rewrite Hrun.
  pose proof (is_log_quiet _ Hlogs2) as Hquiet2.
  destruct (setItem env STORAGE_KEYS.FILES_LAST_SYNC now) as [e' |];
    eexists _, _; (split; [reflexivity |]); cbn;
    (split; [reflexivity |]); (split; [reflexivity |]);
    change (posted :: logs2 ++ ?t) with ([posted] ++ logs2 ++ t);
    sift Hlogs2; repeat split; try done.
  by rewrite !quiet_app, Hquiet2.
Qed.

(** C3, as amended.  With the permission granted and a folder handle
    set, [performAutoSync] attempts [syncFiles] whatever happens in the
    contacts sub-sync, so also when the contact read throws and when the
    store rejects the contacts timestamp: [syncContacts] returns, and
    [syncFiles] runs from the world it leaves, starting with the
    file-info lookup; the result of [performAutoSync] is the result of
    that [syncFiles], so its own [catch] block adds nothing.  An error
    that stops a sub-sync is not swallowed: the sub-sync logs it and
    raises the "Sync Error" alert with its message, and that is the only
    alert of the sub-sync; without such an error the sub-sync raises no
    alert.  And for every captured state no error leaves
    [performAutoSync]. *)
Theorem performAutoSync_contacts_failure_keeps_files
    (directoryUri : string) (w : World) :
  truthy (Some directoryUri) = true →
  (∃ w1 w' evs1 evs2,
     syncContacts env (Some granted) w = (Normal tt, w1) ∧
     trace w1 = trace w ++ evs1 ∧
     syncFiles env (Some directoryUri) w1 = (Normal tt, w') ∧
     trace w' = trace w1 ++ FileInfoLookup directoryUri :: evs2 ∧
     performAutoSync env (Some granted) (Some directoryUri) w =
       (Normal tt, w') ∧
     match contacts_error env w with
     | Some e =>
         ConsoleError "Error syncing contacts:" e ∈ evs1 ∧
         alerts evs1 =
           [Alert "Sync Error" ("Failed to sync contacts: " +:+ message e)]
     | None => alerts evs1 = []
     end ∧
     match setItem env STORAGE_KEYS.FILES_LAST_SYNC
             (files_stamp env directoryUri w1) with
     | Some e =>
         ConsoleError "Error syncing files:" e ∈ evs2 ∧
         alerts evs2 =
           [Alert "Sync Error" ("Failed to sync files: " +:+ message e)]
     | None => alerts evs2 = []
     end) ∧
  (∀ contactsPermission selectedFolderUri w0,
     ∃ w', performAutoSync env contactsPermission selectedFolderUri w0 =
             (Normal tt, w')).
Proof.
  intros Htruthy. split; [| apply performAutoSync_completes].
  destruct (syncContacts_run env w) as (logs & Hlogs & Hrun1).
  set (w1 := (syncContacts env (Some granted) w).2).
  assert (syncContacts env (Some granted) w = (Normal tt, w1)) as Hw1.
  { subst w1. by rewrite Hrun1. }
  destruct (syncFiles_run_stamp env directoryUri w1 Htruthy)
    as (l & logs1 & logs2 & Hlogs1 & Hlogs2 & _ & _ & Hrun2).
  assert (∃ evs1,
    trace w1 = trace w ++ evs1 ∧
    match contacts_error env w with
    | Some e =>
        ConsoleError "Error syncing contacts:" e ∈ evs1 ∧
        alerts evs1 =
          [Alert "Sync Error" ("Failed to sync contacts: " +:+ message e)]
    | None => alerts evs1 = []
    end) as (evs1 & Htrace1 & Herr1).
  { subst w1. rewrite Hrun1. unfold contacts_error. cbn [snd].
    destruct (getContactsAsync env) as [e | data].
    - eexists. split; [reflexivity |]. split; [| done].
      apply list_elem_of_further, list_elem_of_here.
    - cbv zeta. destruct (setItem env _ _) as [e |];
        eexists; (split; [reflexivity |]).
      + split.
        * do 2 apply list_elem_of_further. apply elem_of_app. right.
          apply list_elem_of_further, list_elem_of_here.
        * change (?x :: ?y :: logs ++ ?t) with ([x; y] ++ logs ++ t).
          sift Hlogs. by sift Hlogs.
      + change (?x :: ?y :: logs ++ ?t) with ([x; y] ++ logs ++ t).
        sift Hlogs. by sift Hlogs. }
  clearbody w1. cbv zeta in Hrun2.
  assert (∀ w',
    syncFiles env (Some directoryUri) w1 = (Normal tt, w') →
    performAutoSync env (Some granted) (Some directoryUri) w =
      (Normal tt, w')) as Hauto.
  { intros w' Hw'.
    unfold performAutoSync, try_catch, mbind, Async_bind, bind.
    rewrite bool_decide_eq_true_2, Htruthy by done.
    rewrite Hw1. cbv beta iota. by rewrite Hw'. }
  exists w1.
  destruct (setItem env STORAGE_KEYS.FILES_LAST_SYNC
              (files_stamp env directoryUri w1)) as [e |] eqn:Hstore;
    eexists _, evs1, _;
    (split; [exact Hw1 |]); (split; [exact Htrace1 |]);
    (split; [exact Hrun2 |]); cbn [trace];
    (split; [reflexivity |]); (split; [exact (Hauto _ Hrun2) |]);
    (split; [exact Herr1 |]).
  - split.
    + apply elem_of_app. right. apply list_elem_of_further.
      apply elem_of_app. right.
      apply list_elem_of_further, list_elem_of_here.
    + change (logs1 ++ ?y :: logs2 ++ ?t)
        with (logs1 ++ [y] ++ logs2 ++ t).
      sift Hlogs1. sift Hlogs2. by sift Hlogs1.
  - change (logs1 ++ ?y :: logs2 ++ ?t)
      with (logs1 ++ [y] ++ logs2 ++ t).
    sift Hlogs1. sift Hlogs2. by sift Hlogs1.
Qed.

End Failures.

(** ** The two syncs *)

Section Syncs.

Variable env : Env.

(** X5.  When the contacts are read but the store rejects the timestamp,
    [syncContacts] reports a failure (alert with the message of the
    store, failure status) and the store and the shown last-sync time
    stay as they were; what was done before is not undone: the contact
    list is already replaced and the POST already sent. *)
Theorem syncContacts_store_rejects
    (data : list Contact) (e : JsError) (w : World) :
  getContactsAsync env = inr data →
  setItem env STORAGE_KEYS.CONTACTS_LAST_SYNC
    (iso (clock env (S (ticks w)))) = Some e →
  ∃ w' evs,
    syncContacts env (Some granted) w = (Normal tt, w') ∧
    trace w' = trace w ++ evs ∧
    storage w' = storage w ∧
    s_lastSyncTime (app w') = s_lastSyncTime (app w) ∧
    s_syncStatus (app w') = "Contacts sync failed" ∧
    alerts evs =
      [Alert "Sync Error" ("Failed to sync contacts: " +:+ message e)] ∧
    s_contacts (app w') = data ∧
    network_requests evs =
      [HttpPost (BACKEND_URL +:+ "/sync-contacts")
         (ContactsBody data (iso (clock env (ticks w))))].
Proof.
  intros Hread Hstore.
  destruct (syncContacts_run env w) as (logs & Hlogs & Hrun).
  rewrite Hread in Hrun. cbv zeta in Hrun. rewrite Hstore in Hrun.
  rewrite Hrun. eexists _, _. split; [reflexivity |]. cbn.
  split; [reflexivity |]. repeat split.
  - change (?x :: ?y :: logs ++ ?t) with ([x; y] ++ logs ++ t).
    sift Hlogs. by sift Hlogs.
  - change (?x :: ?y :: logs ++ ?t) with ([x; y] ++ logs ++ t).
    sift Hlogs. by sift Hlogs.
Qed.

(** X6.  When the contacts are read, [syncContacts] shows the list it
    read and sends that same list in its single POST, whether the store
    then accepts the timestamp or not; the contact list is read once. *)
Theorem syncContacts_posts_what_it_shows
    (data : list Contact) (w : World) :
  getContactsAsync env = inr data →
  ∃ w' evs,
    syncContacts env (Some granted) w = (Normal tt, w') ∧
    trace w' = trace w ++ evs ∧
    s_contacts (app w') = data ∧
    local_reads evs = [ContactsRead] ∧
    network_requests evs =
      [HttpPost (BACKEND_URL +:+ "/sync-contacts")
         (ContactsBody (s_contacts (app w')) (iso (clock env (ticks w))))].
Proof.
  intros Hread.
  destruct (syncContacts_run env w) as (logs & Hlogs & Hrun).
  rewrite Hread in Hrun. cbv zeta in Hrun. rewrite Hrun.
  destruct (setItem env _ _); eexists _, _;
    (split; [reflexivity |]); cbn; (split; [reflexivity |]);
    (split; [reflexivity |]);
    change (?x :: ?y :: logs ++ ?t) with ([x; y] ++ logs ++ t);
    sift Hlogs; by sift Hlogs.
Qed.

Lemma syncContacts_untouched
    (contactsPermission : option PermissionStatus) (w : World) (k : string) :
  k ≠ STORAGE_KEYS.CONTACTS_LAST_SYNC →
  let w' := (syncContacts env contactsPermission w).2 in
  storage w' !! k = storage w !! k ∧
  s_files (app w') = s_files (app w) ∧
  s_selectedFolderUri (app w') = s_selectedFolderUri (app w) ∧
  s_contactsPermission (app w') = s_contactsPermission (app w).
Proof.
  intros Hk w'. subst w'.
  destruct (decide (contactsPermission = Some granted)) as [-> | Hperm].
  - destruct (syncContacts_run env w) as (logs & Hlogs & ->).
    destruct (getContactsAsync env) as [e | data]; [done |].
    cbv zeta. destruct (setItem env _ _); cbn; [done |].
    by rewrite lookup_insert_ne.
  - unfold syncContacts. by rewrite bool_decide_eq_false_2.
Qed.

(** X7.  [syncContacts] writes no key of the store but
    [contacts_last_sync], and leaves the file list, the selected folder
    and the permission of the component as they were, for every captured
    permission and every answer of the platform. *)
Theorem syncContacts_frame
    (contactsPermission : option PermissionStatus) (w : World) (k : string) :
  k ≠ STORAGE_KEYS.CONTACTS_LAST_SYNC →
  let w' := (syncContacts env contactsPermission w).2 in
  storage w' !! k = storage w !! k ∧
  s_files (app w') = s_files (app w) ∧
  s_selectedFolderUri (app w') = s_selectedFolderUri (app w) ∧
  s_contactsPermission (app w') = s_contactsPermission (app w).
Proof. apply syncContacts_untouched. Qed.

(** X8.  When a folder is captured but the store rejects the write of
    the timestamp, which is [files_stamp], [syncFiles] reports a failure
    with the message of the store and [files_last_sync] stays as it was;
    the listing is already shown and the POST already sent. *)
Theorem syncFiles_store_rejects
    (directoryUri : string) (e : JsError) (w : World) :
  truthy (Some directoryUri) = true →
  setItem env STORAGE_KEYS.FILES_LAST_SYNC
    (files_stamp env directoryUri w) = Some e →
  ∃ w' evs l,
    syncFiles env (Some directoryUri) w = (Normal tt, w') ∧
    trace w' = trace w ++ evs ∧
    storage w' = storage w ∧
    s_syncStatus (app w') = "Files sync failed" ∧
    alerts evs =
      [Alert "Sync Error" ("Failed to sync files: " +:+ message e)] ∧
    (getFilesFromDirectory env directoryUri w).1 = Normal l ∧
    s_files (app w') = l ∧
    length (network_requests evs) = 1%nat.
Proof.
  intros Htruthy Hstore.
  destruct (syncFiles_run_stamp env directoryUri w Htruthy)
    as (l & logs1 & logs2 & Hlogs1 & Hlogs2 & Hget & _ & Hrun).
  cbv zeta in Hrun. rewrite Hstore in Hrun.
  rewrite Hrun. eexists _, _, l. split; [reflexivity |]. cbn.
  split; [reflexivity |]. repeat split; [| done |].
  - change (?x :: logs1 ++ ?y :: logs2 ++ ?t)
      with ([x] ++ logs1 ++ [y] ++ logs2 ++ t).
    sift Hlogs1. sift Hlogs2. by sift Hlogs1.
  - change (?x :: logs1 ++ ?y :: logs2 ++ ?t)
      with ([x] ++ logs1 ++ [y] ++ logs2 ++ t).
    sift Hlogs1. sift Hlogs2. by sift Hlogs1.
Qed.

(** X9.  With a folder captured, [syncFiles] shows the listing that
    [getFilesFromDirectory] gives for it and sends that same listing in
    its single POST, after a single file-info lookup, of the captured
    folder; this holds for every answer of the platform. *)
Theorem syncFiles_posts_what_it_shows (directoryUri : string) (w : World) :
  truthy (Some directoryUri) = true →
  ∃ w' evs timestamp,
    syncFiles env (Some directoryUri) w = (Normal tt, w') ∧
    trace w' = trace w ++ evs ∧
    (getFilesFromDirectory env directoryUri w).1 =
      Normal (s_files (app w')) ∧
    local_reads evs = [FileInfoLookup directoryUri] ∧
    network_requests evs =
      [HttpPost (BACKEND_URL +:+ "/sync-files")
         (FilesBody (s_files (app w')) timestamp)].
Proof.
  intros Htruthy.
  destruct (syncFiles_run env directoryUri w Htruthy)
    as (l & logs1 & n & logs2 & Hlogs1 & Hlogs2 & Hget & Hrun).
  cbv zeta in Hrun. rewrite Hrun.
  destruct (setItem env _ _); eexists _, _, _;
    (split; [reflexivity |]); cbn; (split; [reflexivity |]);
    (split; [exact Hget |]);
    change (?x :: logs1 ++ ?y :: logs2 ++ ?t)
      with ([x] ++ logs1 ++ [y] ++ logs2 ++ t);
    sift Hlogs1; sift Hlogs2; by sift Hlogs1.
Qed.

Lemma syncFiles_untouched
    (selectedFolderUri : option string) (w : World) (k : string) :
  k ≠ STORAGE_KEYS.FILES_LAST_SYNC →
  let w' := (syncFiles env selectedFolderUri w).2 in
  storage w' !! k = storage w !! k ∧
  s_contacts (app w') = s_contacts (app w) ∧
  s_lastSyncTime (app w') = s_lastSyncTime (app w) ∧
  s_selectedFolderUri (app w') = s_selectedFolderUri (app w) ∧
  s_contactsPermission (app w') = s_contactsPermission (app w).
Proof.
  intros Hk w'. subst w'.
  destruct (truthy selectedFolderUri) eqn:Htruthy.
  - destruct selectedFolderUri as [directoryUri |]; [| done].
    destruct (syncFiles_run env directoryUri w Htruthy)
      as (l & logs1 & n & logs2 & _ & _ & _ & ->).
    cbv zeta. destruct (setItem env _ _); cbn; [done |].
    by rewrite lookup_insert_ne.
  - unfold syncFiles. by rewrite Htruthy.
Qed.

(** X10.  [syncFiles] writes no key of the store but [files_last_sync]
    and never touches the contact list, the shown last-sync time, the
    selected folder or the permission, for every captured folder and
    every answer of the platform. *)
Theorem syncFiles_frame
    (selectedFolderUri : option string) (w : World) (k : string) :
  k ≠ STORAGE_KEYS.FILES_LAST_SYNC →
  let w' := (syncFiles env selectedFolderUri w).2 in
  storage w' !! k = storage w !! k ∧
  s_contacts (app w') = s_contacts (app w) ∧
  s_lastSyncTime (app w') = s_lastSyncTime (app w) ∧
  s_selectedFolderUri (app w') = s_selectedFolderUri (app w) ∧
  s_contactsPermission (app w') = s_contactsPermission (app w).
Proof. apply syncFiles_untouched. Qed.

(** *** What a sync reads and sends *)

Lemma syncContacts_summary
    (contactsPermission : option PermissionStatus) (w : World) :
  ∃ w' evs,
    syncContacts env contactsPermission w = (Normal tt, w') ∧
    trace w' = trace w ++ evs ∧
    local_reads evs =
      (if bool_decide (contactsPermission = Some granted)
       then [ContactsRead] else []) ∧
    length (network_requests evs) =
      (if bool_decide (contactsPermission = Some granted)
       then match getContactsAsync env with
            | inr _ => 1%nat
            | inl _ => 0%nat
            end
       else 0%nat).
Proof.
  case_bool_decide as Hperm.
  - subst. destruct (syncContacts_run env w) as (logs & Hlogs & ->).
    destruct (getContactsAsync env) as [e | data].
    + eexists _, _. split; [reflexivity |]. cbn. by split.
    + cbv zeta. destruct (setItem env _ _); eexists _, _;
        (split; [reflexivity |]); cbn; (split; [reflexivity |]);
        change (?x :: ?y :: logs ++ ?t) with ([x; y] ++ logs ++ t);
        sift Hlogs; by sift Hlogs.
  - unfold syncContacts. rewrite bool_decide_eq_false_2 by done.
    eexists _, _. split; [reflexivity |]. cbn. by split.
Qed.

Lemma syncFiles_summary (selectedFolderUri : option string) (w : World) :
  ∃ w' evs,
    syncFiles env selectedFolderUri w = (Normal tt, w') ∧
    trace w' = trace w ++ evs ∧
    local_reads evs =
      (if truthy selectedFolderUri
       then [FileInfoLookup (default "" selectedFolderUri)] else []) ∧
    length (network_requests evs) =
      (if truthy selectedFolderUri then 1%nat else 0%nat).
Proof.
  destruct (truthy selectedFolderUri) eqn:Htruthy.
  - destruct selectedFolderUri as [directoryUri |]; [| done].
    destruct (syncFiles_run env directoryUri w Htruthy)
      as (l & logs1 & n & logs2 & Hlogs1 & Hlogs2 & _ & ->).
    cbv zeta. destruct (setItem env _ _); eexists _, _;
      (split; [reflexivity |]); cbn; (split; [reflexivity |]);
      change (?x :: logs1 ++ ?y :: logs2 ++ ?t)
        with ([x] ++ logs1 ++ [y] ++ logs2 ++ t);
      sift Hlogs1; sift Hlogs2; by sift Hlogs1.
  - unfold syncFiles. rewrite Htruthy.
    eexists _, _. split; [reflexivity |]. cbn. by split.
Qed.

(** *** [performAutoSync] *)

(** The [catch] block of [performAutoSync] never runs: the handler is
    [syncContacts], when the permission is granted, followed by
    [syncFiles], when a folder is captured. *)
Lemma performAutoSync_unfolds
    (contactsPermission : option PermissionStatus)
    (selectedFolderUri : option string) (w : World) :
  performAutoSync env contactsPermission selectedFolderUri w =
    (Normal tt,
     let w1 :=
       if bool_decide (contactsPermission = Some granted)
       then (syncContacts env contactsPermission w).2 else w in
     if truthy selectedFolderUri
     then (syncFiles env selectedFolderUri w1).2 else w1).
Proof.
  unfold performAutoSync, try_catch, mbind, Async_bind, bind. cbv zeta.
  case_bool_decide as Hperm.
  - destruct (syncContacts_completes env contactsPermission w) as [w1 ->].
    cbn. destruct (truthy selectedFolderUri); [| done].
    by destruct (syncFiles_completes env selectedFolderUri w1) as [w2 ->].
  - cbn. destruct (truthy selectedFolderUri); [| done].
    by destruct (syncFiles_completes env selectedFolderUri w) as [w2 ->].
Qed.

(** X11.  [performAutoSync] reads the contact list once exactly when the
    permission is granted, then looks up the captured folder once
    exactly when one is set, in this order and nothing else; it sends
    one POST per domain that got as far as its submission, and it
    returns normally for every answer of the platform. *)
Theorem performAutoSync_reads_in_order
    (contactsPermission : option PermissionStatus)
    (selectedFolderUri : option string) (w : World) :
  ∃ w' evs,
    performAutoSync env contactsPermission selectedFolderUri w =
      (Normal tt, w') ∧
    trace w' = trace w ++ evs ∧
    local_reads evs =
      (if bool_decide (contactsPermission = Some granted)
       then [ContactsRead] else []) ++
      (if truthy selectedFolderUri
       then [FileInfoLookup (default "" selectedFolderUri)] else []) ∧
    length (network_requests evs) =
      ((if bool_decide (contactsPermission = Some granted)
        then match getContactsAsync env with
             | inr _ => 1
             | inl _ => 0
             end
        else 0) +
       (if truthy selectedFolderUri then 1 else 0))%nat.
Proof.
  rewrite performAutoSync_unfolds. cbv zeta.
  destruct (syncContacts_summary contactsPermission w)
    as (w1 & evs1 & Hrun1 & Htrace1 & Hreads1 & Hposts1).
  set (w1' := if bool_decide (contactsPermission = Some granted)
              then (syncContacts env contactsPermission w).2 else w).
  assert (∃ evs1',
    trace w1' = trace w ++ evs1' ∧
    local_reads evs1' =
      (if bool_decide (contactsPermission = Some granted)
       then [ContactsRead] else []) ∧
    length (network_requests evs1') =
      (if bool_decide (contactsPermission = Some granted)
       then match getContactsAsync env with
            | inr _ => 1%nat
            | inl _ => 0%nat
            end
       else 0%nat)) as (evs1' & Htrace & Hreads & Hposts).
  { subst w1'. case_bool_decide.
    - exists evs1. by rewrite Hrun1.
    - exists []. by rewrite app_nil_r. }
  clearbody w1'.
  destruct (syncFiles_summary selectedFolderUri w1')
    as (w2 & evs2 & Hrun2 & Htrace2 & Hreads2 & Hposts2).
  destruct (truthy selectedFolderUri).
  - rewrite Hrun2. exists w2, (evs1' ++ evs2). split; [done |].
    rewrite Htrace2, Htrace, app_assoc. split; [done |].
    rewrite local_reads_app, network_requests_app, length_app.
    by rewrite Hreads, Hreads2, Hposts, Hposts2.
  - exists w1', evs1'. split; [done |]. split; [done |].
    by rewrite Hreads, Hposts, app_nil_r, Nat.add_0_r.
Qed.

(** X12.  [performAutoSync] writes no key of the store but the two
    timestamps, so never [folder_uri], and leaves the selected folder and
    the permission of the component as they were. *)
Theorem performAutoSync_frame
    (contactsPermission : option PermissionStatus)
    (selectedFolderUri : option string) (w : World) (k : string) :
  k ≠ STORAGE_KEYS.CONTACTS_LAST_SYNC →
  k ≠ STORAGE_KEYS.FILES_LAST_SYNC →
  let w' := (performAutoSync env contactsPermission selectedFolderUri w).2 in
  storage w' !! k = storage w !! k ∧
  s_selectedFolderUri (app w') = s_selectedFolderUri (app w) ∧
  s_contactsPermission (app w') = s_contactsPermission (app w).
Proof.
  intros Hcontacts Hfiles w'. subst w'.
  rewrite performAutoSync_unfolds. cbv zeta. cbn [snd].
  set (w1 := if bool_decide (contactsPermission = Some granted)
             then (syncContacts env contactsPermission w).2 else w).
  assert (storage w1 !! k = storage w !! k ∧
          s_selectedFolderUri (app w1) = s_selectedFolderUri (app w) ∧
          s_contactsPermission (app w1) = s_contactsPermission (app w))
    as (Hsto & Hfolder & Hperm).
  { subst w1. case_bool_decide; [| done].
    destruct (syncContacts_untouched contactsPermission w k Hcontacts)
      as (? & _ & ? & ?).
    done. }
  clearbody w1.
  destruct (truthy selectedFolderUri); [| done].
  destruct (syncFiles_untouched selectedFolderUri w1 k Hfiles)
    as (Hsto2 & _ & _ & Hfolder2 & Hperm2).
  cbv zeta in *. by rewrite Hsto2, Hfolder2, Hperm2.
Qed.

End Syncs.

(** ** The backend only changes the console *)

Section Backend.

Variables env1 env2 : Env.
Hypothesis Hsame : same_but_backend env1 env2.

Lemma getFilesFromDirectory_same (directoryUri : string) (w : World) :
  getFilesFromDirectory env1 directoryUri w =
  getFilesFromDirectory env2 directoryUri w.
Proof.
  destruct Hsame as (_ & Hinfo & _ & Hclock).
  unfold getFilesFromDirectory, FileSystem_getInfoAsync, or_else_now,
    Date_now, readClock.
  unfold_async. cbn. rewrite Hinfo.
  destruct (getInfoAsync env2 directoryUri) as [e | fileInfo]; cbn;
    [done |].
  destruct (info_exists fileInfo); cbn; [| done].
  destruct (info_modificationTime fileInfo) as [v |]; cbn;
    [destruct (v =? 0); cbn |]; by rewrite ?Hclock.
Qed.

Lemma syncContacts_same
    (contactsPermission : option PermissionStatus) (w1 w2 : World) :
  same_but_log w1 w2 →
  (syncContacts env1 contactsPermission w1).1 =
    (syncContacts env2 contactsPermission w2).1 ∧
  same_but_log (syncContacts env1 contactsPermission w1).2
               (syncContacts env2 contactsPermission w2).2.
Proof.
  destruct Hsame as (Hread & _ & Hstore & Hclock).
  intros (Happ & Hsto & Hticks & Halerts).
  destruct (decide (contactsPermission = Some granted)) as [-> | Hperm].
  - destruct (syncContacts_run env1 w1) as (logs1 & Hlogs1 & ->).
    destruct (syncContacts_run env2 w2) as (logs2 & Hlogs2 & ->).
    rewrite Hread. unfold same_but_log.
    destruct (getContactsAsync env2) as [e | data]; cbn.
    + rewrite Happ, Hsto, Hticks, !alerts_app, Halerts. done.
    + rewrite Hstore, !Hclock, Hticks.
      destruct (setItem env2 _ _); cbn;
        rewrite Happ, Hsto, ?Hticks;
        (split; [done |]); repeat split;
        rewrite !alerts_app, Halerts; f_equal;
        change (?x :: ?y :: ?l ++ ?t) with ([x; y] ++ l ++ t);
        sift Hlogs1; sift Hlogs2; by sift Hlogs1.
  - unfold syncContacts, same_but_log.
    rewrite !bool_decide_eq_false_2 by done. cbn.
    by rewrite Happ, Hsto, Hticks, !alerts_app, Halerts.
Qed.

Lemma syncFiles_same (selectedFolderUri : option string) (w1 w2 : World) :
  same_but_log w1 w2 →
  (syncFiles env1 selectedFolderUri w1).1 =
    (syncFiles env2 selectedFolderUri w2).1 ∧
  same_but_log (syncFiles env1 selectedFolderUri w1).2
               (syncFiles env2 selectedFolderUri w2).2.
Proof.
  pose proof Hsame as (_ & _ & Hstore & Hclock).
  intros (Happ & Hsto & Hticks & Halerts).
  destruct (truthy selectedFolderUri) eqn:Htruthy.
  - destruct selectedFolderUri as [directoryUri |]; [| done].
    destruct (getFilesFromDirectory_events env2 directoryUri (ticks w2))
      as (l & logs & n & Hlogs & Hget).
    unfold syncFiles. rewrite Htruthy. unfold_async. cbn.
    rewrite getFilesFromDirectory_same.
    rewrite !Hget by done. unfold after at 1 2 3 4. cbn.
    repeat match goal with
    | |- context [sendFilesToBackend ?env ?d ?W] =>
        let sent := fresh "sent" in
        let Hsent := fresh "Hsent" in
        destruct (sendFilesToBackend_events env d W)
          as (sent & -> & Hsent)
    end.
    finish_store. unfold same_but_log.
    rewrite Hstore, !Hclock, Hticks.
    destruct (setItem env2 _ _); cbn;
      rewrite Happ, Hsto, ?Hticks;
      (split; [done |]); repeat split;
      rewrite <- !app_assoc, !alerts_app, Halerts; f_equal;
      rewrite !alerts_cons; cbn [is_alert];
      by rewrite ?(is_log_no_alerts _ Hlogs), ?(is_log_no_alerts _ Hsent),
           ?(is_log_no_alerts _ Hsent0).
  - unfold syncFiles, same_but_log. rewrite Htruthy. cbn.
    by rewrite Happ, Hsto, Hticks, !alerts_app, Halerts.
Qed.

(** X13.  What the backend answers changes nothing but console lines:
    on two platforms that differ only in the answers to the POSTs,
    [performAutoSync] ends with the same completion, the same component
    state, the same store and the same alerts. *)
Theorem performAutoSync_backend_independent
    (contactsPermission : option PermissionStatus)
    (selectedFolderUri : option string) (w : World) :
  let r1 := performAutoSync env1 contactsPermission selectedFolderUri w in
  let r2 := performAutoSync env2 contactsPermission selectedFolderUri w in
  r1.1 = r2.1 ∧
  app r1.2 = app r2.2 ∧
  storage r1.2 = storage r2.2 ∧
  alerts (trace r1.2) = alerts (trace r2.2).
Proof.
  intros r1 r2. subst r1 r2. rewrite !performAutoSync_unfolds. cbv zeta.
  cbn [fst snd]. split; [done |].
  assert (same_but_log w w) as Hw by done.
  set (a := if bool_decide (contactsPermission = Some granted)
            then (syncContacts env1 contactsPermission w).2 else w).
  set (b := if bool_decide (contactsPermission = Some granted)
            then (syncContacts env2 contactsPermission w).2 else w).
  assert (same_but_log a b) as Hab.
  { subst a b. case_bool_decide; [| done].
    by apply syncContacts_same. }
  clearbody a b.
  assert (same_but_log
            (if truthy selectedFolderUri
             then (syncFiles env1 selectedFolderUri a).2 else a)
            (if truthy selectedFolderUri
             then (syncFiles env2 selectedFolderUri b).2 else b))
    as (? & ? & _ & ?).
  { destruct (truthy selectedFolderUri); [| done].
    by apply syncFiles_same. }
  done.
Qed.

End Backend.

(** ** Manual sync *)

Section Manual.

Variable env : Env.

Ltac enter_performManualSync :=
  unfold performManualSync; unfold_async; cbn;
  rewrite performAutoSync_unfolds; cbv zeta; cbn.

(** X14.  [performManualSync] never reaches its [catch] block: for every
    captured state and every answer of the platform it returns normally
    with the loading flag cleared and the status "Manual sync
    completed!", so "Manual sync failed" is never shown. *)
Theorem performManualSync_always_completed
    (contactsPermission : option PermissionStatus)
    (selectedFolderUri : option string) (w : World) :
  ∃ w',
    performManualSync env contactsPermission selectedFolderUri w =
      (Normal tt, w') ∧
    s_isLoading (app w') = false ∧
    s_syncStatus (app w') = "Manual sync completed!".
Proof.
  enter_performManualSync. by eexists.
Qed.

(** X15.  When the contact read throws during a manual sync, the user
    gets the "Sync Error" alert of [syncContacts], but the failure status
    set there is overwritten: the status ends as "Manual sync
    completed!", and nothing is written to the store. *)
Theorem performManualSync_overwrites_failure (e : JsError) (w : World) :
  getContactsAsync env = inl e →
  ∃ w' evs,
    performManualSync env (Some granted) None w = (Normal tt, w') ∧
    trace w' = trace w ++ evs ∧
    alerts evs =
      [Alert "Sync Error" ("Failed to sync contacts: " +:+ message e)] ∧
    s_syncStatus (app w') = "Manual sync completed!" ∧
    storage w' = storage w.
Proof.
  intros Hread. enter_performManualSync.
  rewrite bool_decide_eq_true_2 by done.
  rewrite (syncContacts_read_throws_run env e _ Hread). cbn.
  eexists _, _. split; [reflexivity |]. cbn.
  rewrite <- !app_assoc. by split.
Qed.

(** X16.  Permission granted and no folder: a manual sync syncs the
    contacts only.  The contacts being read and the store accepting the
    write, [contacts_last_sync] is the only key written, the contact list
    is read once, no file is looked up, and the status ends as "Manual
    sync completed!". *)
Theorem performManualSync_contacts_only
    (selectedFolderUri : option string) (data : list Contact) (w : World) :
  let now := iso (clock env (S (ticks w))) in
  truthy selectedFolderUri = false →
  getContactsAsync env = inr data →
  setItem env STORAGE_KEYS.CONTACTS_LAST_SYNC now = None →
  ∃ w' evs,
    performManualSync env (Some granted) selectedFolderUri w =
      (Normal tt, w') ∧
    trace w' = trace w ++ evs ∧
    storage w' = <[STORAGE_KEYS.CONTACTS_LAST_SYNC := now]> (storage w) ∧
    s_contacts (app w') = data ∧
    s_lastSyncTime (app w') = Some now ∧
    s_files (app w') = s_files (app w) ∧
    local_reads evs = [ContactsRead] ∧
    alerts evs = [] ∧
    s_syncStatus (app w') = "Manual sync completed!".
Proof.
  intros now Hfolder Hread Hstore. enter_performManualSync.
  rewrite Hfolder, bool_decide_eq_true_2 by done.
  match goal with
  | |- context [syncContacts env (Some granted) ?W] =>
      destruct (syncContacts_run env W) as (logs & Hlogs & ->)
  end.
  rewrite Hread. cbv zeta. cbn. fold now. rewrite Hstore. cbn.
  eexists _, _. split; [reflexivity |]. cbn.
  rewrite <- !app_assoc. split; [reflexivity |].
  repeat split;
    change (?x :: ?y :: logs ++ ?t) with ([x; y] ++ logs ++ t);
    sift Hlogs; by sift Hlogs.
Qed.

End Manual.

(** ** Selecting a folder *)

Section Folder.

Variable env : Env.

Ltac enter_selectFolder Hpick :=
  unfold selectFolder, DocumentPicker_getDocumentAsync,
    AsyncStorage_setItem;
  unfold_async; cbn; rewrite Hpick; cbn.

(** X17.  The first selection of a folder does not sync it.  The
    handler was created when no folder was selected, so after the picked
    folder is put in the component state and in the store under
    [folder_uri], the call of [syncFiles] stops at its guard: the
    "Success" alert is followed by "Folder Required", and there is no
    file-info lookup and no POST. *)
Theorem selectFolder_first_selection
    (selectedFolderUri : option string) (picked : Asset)
    (others : list Asset) (w : World) :
  truthy selectedFolderUri = false →
  getDocumentAsync env =
    inr {| canceled := false; assets := Some (picked :: others) |} →
  setItem env STORAGE_KEYS.FOLDER_URI (asset_uri picked) = None →
  selectFolder env selectedFolderUri w =
    (Normal tt,
     {| app := with_folder (app w) (Some (asset_uri picked));
        storage :=
          <[STORAGE_KEYS.FOLDER_URI := asset_uri picked]> (storage w);
        trace :=
          trace w ++
            [DocumentPick;
             StorageWrite STORAGE_KEYS.FOLDER_URI (asset_uri picked);
             Alert "Success" "Folder access granted!";
             Alert "Folder Required" "Please select a folder first."];
        ticks := ticks w |}).
Proof.
  intros Hfolder Hpick Hstore. enter_selectFolder Hpick.
  rewrite Hstore. cbn. unfold syncFiles. rewrite Hfolder. cbn.
  by rewrite <- !app_assoc.
Qed.

(** X18.  Selecting another folder syncs the previous one.  With a
    folder [previous] captured, the picked folder goes to the component
    state and to the store, and the file sync that follows looks up
    [previous]: that lookup is the only local read. *)
Theorem selectFolder_syncs_previous_folder
    (previous : string) (picked : Asset) (others : list Asset) (w : World) :
  truthy (Some previous) = true →
  getDocumentAsync env =
    inr {| canceled := false; assets := Some (picked :: others) |} →
  setItem env STORAGE_KEYS.FOLDER_URI (asset_uri picked) = None →
  ∃ w' evs,
    selectFolder env (Some previous) w = (Normal tt, w') ∧
    trace w' =
      trace w ++
        [DocumentPick;
         StorageWrite STORAGE_KEYS.FOLDER_URI (asset_uri picked);
         Alert "Success" "Folder access granted!";
         FileInfoLookup previous] ++ evs ∧
    local_reads evs = [] ∧
    s_selectedFolderUri (app w') = Some (asset_uri picked) ∧
    storage w' !! STORAGE_KEYS.FOLDER_URI = Some (asset_uri picked).
Proof.
  intros Hfolder Hpick Hstore. enter_selectFolder Hpick.
  rewrite Hstore. cbn.
  match goal with
  | |- context [syncFiles env (Some previous) ?W] =>
      destruct (syncFiles_run env previous W Hfolder)
        as (l & logs1 & n & logs2 & Hlogs1 & Hlogs2 & _ & ->)
  end.
  cbv zeta.
  assert (∀ t, local_reads
                 (logs1 ++
                  HttpPost (BACKEND_URL +:+ "/sync-files")
                    (FilesBody l (iso (clock env (n + ticks w))))
                  :: logs2 ++ t) = local_reads t) as Hreads.
  { intros t.
    change (logs1 ++ ?y :: logs2 ++ t) with (logs1 ++ [y] ++ logs2 ++ t).
    sift Hlogs1. sift Hlogs2. by sift Hlogs1. }
  destruct (setItem env STORAGE_KEYS.FILES_LAST_SYNC _); cbn;
    eexists _, _; (split; [reflexivity |]); cbn;
    rewrite <- !app_assoc; cbn; (split; [reflexivity |]);
    rewrite Hreads; repeat split.
  - apply lookup_insert_eq.
  - rewrite lookup_insert_ne by done. apply lookup_insert_eq.
Qed.

(** X19.  When the store rejects the picked folder, the component state
    already holds it while the store does not: the handler alerts
    "Failed to select folder" and starts no sync. *)
Theorem selectFolder_store_rejects
    (selectedFolderUri : option string) (picked : Asset)
    (others : list Asset) (e : JsError) (w : World) :
  getDocumentAsync env =
    inr {| canceled := false; assets := Some (picked :: others) |} →
  setItem env STORAGE_KEYS.FOLDER_URI (asset_uri picked) = Some e →
  selectFolder env selectedFolderUri w =
    (Normal tt,
     {| app := with_folder (app w) (Some (asset_uri picked));
        storage := storage w;
        trace :=
          trace w ++
            [DocumentPick;
             StorageWrite STORAGE_KEYS.FOLDER_URI (asset_uri picked);
             ConsoleError "Error selecting folder:" e;
             Alert "Error" "Failed to select folder"];
        ticks := ticks w |}).
Proof.
  intros Hpick Hstore. enter_selectFolder Hpick.
  rewrite Hstore. cbn. by rewrite <- !app_assoc.
Qed.

(** X20.  When the picker throws, [selectFolder] logs the error, alerts
    "Failed to select folder" and changes neither the component state nor
    the store. *)
Theorem selectFolder_picker_throws
    (selectedFolderUri : option string) (e : JsError) (w : World) :
  getDocumentAsync env = inl e →
  selectFolder env selectedFolderUri w =
    (Normal tt,
     after w [DocumentPick;
              ConsoleError "Error selecting folder:" e;
              Alert "Error" "Failed to select folder"] 0).
Proof.
  intros Hpick. enter_selectFolder Hpick.
  unfold after. by rewrite <- !app_assoc.
Qed.

End Folder.

(** ** Start-up and permission *)

Section StartupFacts.

Variable env : Env.
Variable gateway : Gateway.

(** A picked folder that the store accepts is in the component state and
    under [folder_uri] when [selectFolder] returns, whatever the file sync
    that follows does. *)
Lemma selectFolder_stores
    (selectedFolderUri : option string) (picked : Asset)
    (others : list Asset) (w : World) :
  getDocumentAsync env =
    inr {| canceled := false; assets := Some (picked :: others) |} →
  setItem env STORAGE_KEYS.FOLDER_URI (asset_uri picked) = None →
  let w1 := (selectFolder env selectedFolderUri w).2 in
  storage w1 !! STORAGE_KEYS.FOLDER_URI = Some (asset_uri picked) ∧
  s_selectedFolderUri (app w1) = Some (asset_uri picked).
Proof.
  intros Hpick Hstore w1. subst w1.
  unfold selectFolder, DocumentPicker_getDocumentAsync,
    AsyncStorage_setItem.
  unfold_async. cbn. rewrite Hpick. cbn. rewrite Hstore. cbn.
  match goal with
  | |- context [syncFiles env selectedFolderUri ?W] =>
      destruct (syncFiles_untouched env selectedFolderUri W
                  STORAGE_KEYS.FOLDER_URI)
        as (Hsto & _ & _ & Hfolder & _); [done |];
      destruct (syncFiles_completes env selectedFolderUri W) as [w2 Hrun];
      rewrite Hrun in *
  end.
  cbn in *. rewrite Hsto, Hfolder. split; [| done].
  apply lookup_insert_eq.
Qed.

(** X21.  Round trip through the store: a folder picked with
    [selectFolder] and accepted by the store is the folder that
    [loadStoredFolderUri] selects after a restart, provided its
    identifier is not the empty string and the store can be read. *)
Theorem selectFolder_restart_round_trip
    (selectedFolderUri : option string) (picked : Asset)
    (others : list Asset) (w : World) :
  truthy (Some (asset_uri picked)) = true →
  getDocumentAsync env =
    inr {| canceled := false; assets := Some (picked :: others) |} →
  setItem env STORAGE_KEYS.FOLDER_URI (asset_uri picked) = None →
  getItem_rejects gateway STORAGE_KEYS.FOLDER_URI = None →
  let w1 := (selectFolder env selectedFolderUri w).2 in
  let w2 := (loadStoredFolderUri gateway (restart w1)).2 in
  s_selectedFolderUri (app w2) = Some (asset_uri picked) ∧
  s_selectedFolderUri (app w2) = s_selectedFolderUri (app w1).
Proof.
  intros Htruthy Hpick Hstore Hread w1 w2.
  destruct (selectFolder_stores selectedFolderUri picked others w
              Hpick Hstore) as (Hsto & Hfolder).
  fold w1 in Hsto, Hfolder. subst w2. rewrite Hfolder.
  unfold loadStoredFolderUri, AsyncStorage_getItem, restart.
  unfold_async. cbn -[truthy]. rewrite Hread. cbn -[truthy].
  by rewrite Hsto, Htruthy.
Qed.

(** X22.  Round trip of the timestamp: after a [syncContacts] whose
    read succeeded and whose write the store accepted,
    [loadLastSyncTime] shows after a restart the instant that
    [syncContacts] showed, provided the store can be read. *)
Theorem syncContacts_restart_round_trip
    (data : list Contact) (w : World) :
  let now := iso (clock env (S (ticks w))) in
  truthy (Some now) = true →
  getContactsAsync env = inr data →
  setItem env STORAGE_KEYS.CONTACTS_LAST_SYNC now = None →
  getItem_rejects gateway STORAGE_KEYS.CONTACTS_LAST_SYNC = None →
  let w1 := (syncContacts env (Some granted) w).2 in
  let w2 := (loadLastSyncTime gateway (restart w1)).2 in
  s_lastSyncTime (app w1) = Some now ∧
  s_lastSyncTime (app w2) = Some now.
Proof.
  intros now Htruthy Hread Hstore Hget w1 w2. subst w1 w2.
  destruct (syncContacts_run env w) as (logs & Hlogs & ->).
  rewrite Hread. cbv zeta. fold now. rewrite Hstore. cbn.
  split; [done |].
  unfold loadLastSyncTime, AsyncStorage_getItem, restart.
  unfold_async. cbn -[truthy]. rewrite Hget. cbn -[truthy].
  by rewrite lookup_insert_eq, Htruthy.
Qed.

(** X23.  A file sync never counts as a last sync: when the store holds
    no [contacts_last_sync], it still holds none after [syncFiles], and
    [loadLastSyncTime] shows no last-sync time after a restart, however
    the file sync went. *)
Theorem syncFiles_is_no_last_sync
    (selectedFolderUri : option string) (w : World) :
  storage w !! STORAGE_KEYS.CONTACTS_LAST_SYNC = None →
  let w1 := (syncFiles env selectedFolderUri w).2 in
  let w2 := (loadLastSyncTime gateway (restart w1)).2 in
  storage w1 !! STORAGE_KEYS.CONTACTS_LAST_SYNC = None ∧
  s_lastSyncTime (app w2) = None.
Proof.
  intros Hnone w1 w2.
  destruct (syncFiles_untouched env selectedFolderUri w
              STORAGE_KEYS.CONTACTS_LAST_SYNC) as (Hsto & _); [done |].
  fold w1 in Hsto. rewrite Hnone in Hsto. split; [done |]. subst w2.
  unfold loadLastSyncTime, AsyncStorage_getItem, restart.
  unfold_async. cbn.
  destruct (getItem_rejects gateway _); [done |].
  by rewrite Hsto.
Qed.

(** X24.  With no [folder_uri] in the store, or an empty one,
    [loadStoredFolderUri] changes nothing; when the read of the store is
    rejected it only logs the error.  It never throws. *)
Theorem loadStoredFolderUri_nothing_stored (w : World) :
  truthy (storage w !! STORAGE_KEYS.FOLDER_URI) = false →
  loadStoredFolderUri gateway w =
    (Normal tt,
     match getItem_rejects gateway STORAGE_KEYS.FOLDER_URI with
     | None => w
     | Some e =>
         after w [ConsoleError "Error loading stored folder URI:" e] 0
     end).
Proof.
  intros Hfalsy.
  unfold loadStoredFolderUri, AsyncStorage_getItem. unfold_async.
  destruct (getItem_rejects gateway _); [done |].
  by rewrite Hfalsy.
Qed.

(** X25.  When the permission query is rejected,
    [checkContactsPermission] answers [denied] and only logs the error:
    the permission held by the component is not changed, so it can still
    read [granted]. *)
Theorem checkContactsPermission_query_rejected (e : JsError) (w : World) :
  getPermissionsAsync gateway = inl e →
  checkContactsPermission gateway w =
    (Normal denied,
     after w [ConsoleError "Error checking contacts permission:" e] 0).
Proof.
  intros Hquery.
  unfold checkContactsPermission, Contacts_getPermissionsAsync.
  unfold_async. by rewrite Hquery.
Qed.

(** X26.  Granting the permission through [requestContactsPermission]
    does not sync the contacts.  The handler was created while the
    permission was not granted, so the call of [syncContacts] stops at
    its guard: the "Success" alert is followed by "Permission Required",
    and the contact list is not read. *)
Theorem requestContactsPermission_granted_does_not_sync
    (contactsPermission : option PermissionStatus) (w : World) :
  contactsPermission ≠ Some granted →
  requestPermissionsAsync gateway = inr granted →
  requestContactsPermission env gateway contactsPermission w =
    (Normal granted,
     {| app := with_permission (app w) (Some granted);
        storage := storage w;
        trace :=
          trace w ++
            [Alert "Success" "Contacts permission granted!";
             Alert "Permission Required"
                   "Please grant contacts permission first."];
        ticks := ticks w |}).
Proof.
  intros Hperm Hrequest.
  unfold requestContactsPermission, Contacts_requestPermissionsAsync,
    syncContacts.
  rewrite (bool_decide_eq_false_2 _ Hperm).
  unfold_async. rewrite Hrequest. cbn.
  rewrite bool_decide_eq_true_2 by done. cbn.
  by rewrite <- !app_assoc.
Qed.

(** X27.  When the user does not grant the permission,
    [requestContactsPermission] records the answer, raises the
    "Permission Denied" alert, starts no sync and returns the answer. *)
Theorem requestContactsPermission_refused
    (contactsPermission : option PermissionStatus)
    (status : PermissionStatus) (w : World) :
  status ≠ granted →
  requestPermissionsAsync gateway = inr status →
  requestContactsPermission env gateway contactsPermission w =
    (Normal status,
     {| app := with_permission (app w) (Some status);
        storage := storage w;
        trace :=
          trace w ++
            [Alert "Permission Denied"
               "Contacts access is required for this app to work properly."];
        ticks := ticks w |}).
Proof.
  intros Hstatus Hrequest.
  unfold requestContactsPermission, Contacts_requestPermissionsAsync.
  unfold_async. rewrite Hrequest. cbn.
  by rewrite (bool_decide_eq_false_2 _ Hstatus).
Qed.

(** X28.  When the permission request is rejected,
    [requestContactsPermission] answers [denied], logs the error and
    alerts "Failed to request contacts permission"; the component state
    and the store are not changed. *)
Theorem requestContactsPermission_rejected
    (contactsPermission : option PermissionStatus) (e : JsError)
    (w : World) :
  requestPermissionsAsync gateway = inl e →
  requestContactsPermission env gateway contactsPermission w =
    (Normal denied,
     after w [ConsoleError "Error requesting contacts permission:" e;
              Alert "Error" "Failed to request contacts permission"] 0).
Proof.
  intros Hrequest.
  unfold requestContactsPermission, Contacts_requestPermissionsAsync.
  unfold_async. rewrite Hrequest. cbn. unfold after.
  by rewrite <- !app_assoc.
Qed.

(** X29.  Unless the handler was created with the permission granted
    and a folder selected, [initializeApp] starts no sync, whatever the
    permission query and the store answer: it only logs, so it reads no
    contact, looks up no file, sends no POST and raises no alert; the
    store, the contact list and the file list are unchanged and the
    loading flag ends cleared.  This is the case of the first render,
    where both captured values are [null]. *)
Theorem initializeApp_starts_no_sync
    (contactsPermission : option PermissionStatus)
    (selectedFolderUri : option string) (w : World) :
  contactsPermission ≠ Some granted ∨ truthy selectedFolderUri = false →
  ∃ w' logs,
    initializeApp env gateway contactsPermission selectedFolderUri w =
      (Normal tt, w') ∧
    trace w' = trace w ++ logs ∧
    forallb is_log logs = true ∧
    storage w' = storage w ∧
    s_contacts (app w') = s_contacts (app w) ∧
    s_files (app w') = s_files (app w) ∧
    s_isLoading (app w') = false.
Proof.
  intros Hguard.
  assert (bool_decide (contactsPermission = Some granted)
          && truthy selectedFolderUri = false) as Hskip.
  { destruct Hguard as [Hperm | ->].
    - by rewrite (bool_decide_eq_false_2 _ Hperm).
    - apply andb_false_r. }
  unfold initializeApp, checkContactsPermission, loadStoredFolderUri,
    loadLastSyncTime, Contacts_getPermissionsAsync, AsyncStorage_getItem.
  rewrite Hskip. unfold_async. cbn.
  destruct (getPermissionsAsync gateway) as [e1 | status]; cbn;
    destruct (getItem_rejects gateway STORAGE_KEYS.FOLDER_URI)
      as [e2 |]; cbn;
    try destruct (truthy (storage w !! STORAGE_KEYS.FOLDER_URI)); cbn;
    destruct (getItem_rejects gateway STORAGE_KEYS.CONTACTS_LAST_SYNC)
      as [e3 |]; cbn;
    try destruct (truthy (storage w !! STORAGE_KEYS.CONTACTS_LAST_SYNC));
    cbn;
    eexists _, _; (split; [reflexivity |]); cbn;
    rewrite <- ?app_assoc; cbn;
    first [ by split
          | by (split; [symmetry; apply app_nil_r |]) ].
Qed.

(** X30.  [initializeApp] returns normally with the loading flag
    cleared for every captured state and every answer of the platform:
    each of its steps handles its own errors. *)
Theorem initializeApp_completes
    (contactsPermission : option PermissionStatus)
    (selectedFolderUri : option string) (w : World) :
  ∃ w',
    initializeApp env gateway contactsPermission selectedFolderUri w =
      (Normal tt, w') ∧
    s_isLoading (app w') = false.
Proof.
  unfold initializeApp, checkContactsPermission, loadStoredFolderUri,
    loadLastSyncTime, Contacts_getPermissionsAsync, AsyncStorage_getItem.
  unfold_async. cbn.
  destruct (getPermissionsAsync gateway) as [e1 | status]; cbn;
    destruct (getItem_rejects gateway STORAGE_KEYS.FOLDER_URI)
      as [e2 |]; cbn;
    try destruct (truthy (storage w !! STORAGE_KEYS.FOLDER_URI)); cbn;
    destruct (getItem_rejects gateway STORAGE_KEYS.CONTACTS_LAST_SYNC)
      as [e3 |]; cbn;
    try destruct (truthy (storage w !! STORAGE_KEYS.CONTACTS_LAST_SYNC));
    cbn;
    (destruct (bool_decide (contactsPermission = Some granted)
               && truthy selectedFolderUri);
     [rewrite performAutoSync_unfolds |]); cbn; by eexists.
Qed.

End StartupFacts.

(** ** The permission badge *)

(** X4.  [getPermissionStatus] shows [granted] and [denied] each with a
    badge of its own and everything else as "Not Requested": two
    permissions get the same badge exactly when they are equal or are
    both among [undetermined] and [null]. *)
Theorem getPermissionStatus_same_badge
    (p q : option PermissionStatus) :
  getPermissionStatus p = getPermissionStatus q ↔
  p = q ∨
  ((p = None ∨ p = Some undetermined) ∧ (q = None ∨ q = Some undetermined)).
Proof.
  split.
  - destruct p as [[| |] |], q as [[| |] |]; cbn; intros H;
      first [ discriminate H | by left | right; by eauto ].
  - intros [-> | [[-> | ->] [-> | ->]]]; reflexivity.
Qed.

(** ** The further properties on concrete platforms *)

Lemma sendContactsToBackend_bad_json_witness :
  ok {| status := 200; json := inl {| message := "JSON Parse error" |} |}
    = true ∧
  sendContactsToBackend env_bad_json [ann] w0 =
    (Normal tt,
     after w0
       [HttpPost (BACKEND_URL +:+ "/sync-contacts")
          (ContactsBody [ann] (iso (clock env_bad_json (ticks w0))));
        ConsoleError "Backend sync error for contacts:"
          {| message := "JSON Parse error" |};
        ConsoleLog "Continuing with local storage only" None] 1).
Proof.
  split; [reflexivity |].
  apply (sendContactsToBackend_bad_json env_bad_json [ann]
           {| status := 200;
              json := inl {| message := "JSON Parse error" |} |}
           {| message := "JSON Parse error" |} w0); reflexivity.
Defined.

Lemma syncContacts_store_rejects_witness :
  getContactsAsync env_picks_store_rejects = inr [ann] ∧
  setItem env_picks_store_rejects STORAGE_KEYS.CONTACTS_LAST_SYNC
    (iso (clock env_picks_store_rejects (S (ticks w0)))) =
    Some {| message := "database or disk is full" |} ∧
  ∃ w',
    syncContacts env_picks_store_rejects (Some granted) w0 =
      (Normal tt, w') ∧
    storage w' = storage w0 ∧
    s_contacts (app w') = [ann].
Proof.
  split; [reflexivity |]. split; [reflexivity |].
  destruct (syncContacts_store_rejects env_picks_store_rejects [ann]
              {| message := "database or disk is full" |} w0
              eq_refl eq_refl)
    as (w' & evs & Hrun & _ & Hsto & _ & _ & _ & Hcontacts & _).
  exists w'. repeat split; assumption.
Defined.

Lemma syncContacts_posts_what_it_shows_witness :
  getContactsAsync env_all_fine = inr [ann] ∧
  ∃ w' evs,
    syncContacts env_all_fine (Some granted) w0 = (Normal tt, w') ∧
    s_contacts (app w') = [ann] ∧
    local_reads evs = [ContactsRead].
Proof.
  split; [reflexivity |].
  destruct (syncContacts_posts_what_it_shows env_all_fine [ann] w0 eq_refl)
    as (w' & evs & Hrun & _ & Hcontacts & Hreads & _).
  exists w', evs. repeat split; assumption.
Defined.

Lemma syncContacts_frame_witness :
  STORAGE_KEYS.FOLDER_URI ≠ STORAGE_KEYS.CONTACTS_LAST_SYNC ∧
  storage (syncContacts env_all_fine (Some granted) w0).2
    !! STORAGE_KEYS.FOLDER_URI = storage w0 !! STORAGE_KEYS.FOLDER_URI.
Proof.
  split; [discriminate |].
  apply (syncContacts_frame env_all_fine (Some granted) w0
           STORAGE_KEYS.FOLDER_URI).
  discriminate.
Defined.

Lemma syncFiles_store_rejects_witness :
  truthy (Some mock_folder) = true ∧
  setItem env_picks_store_rejects STORAGE_KEYS.FILES_LAST_SYNC
    (files_stamp env_picks_store_rejects mock_folder w0) =
    Some {| message := "database or disk is full" |} ∧
  ∃ w',
    syncFiles env_picks_store_rejects (Some mock_folder) w0 =
      (Normal tt, w') ∧
    storage w' = storage w0 ∧
    s_syncStatus (app w') = "Files sync failed".
Proof.
  split; [reflexivity |]. split; [reflexivity |].
  destruct (syncFiles_store_rejects env_picks_store_rejects mock_folder
              {| message := "database or disk is full" |} w0
              eq_refl eq_refl)
    as (w' & evs & l & Hrun & _ & Hsto & Hstatus & _).
  exists w'. repeat split; assumption.
Defined.

Lemma syncFiles_posts_what_it_shows_witness :
  truthy (Some mock_folder) = true ∧
  ∃ w' evs,
    syncFiles env_all_fine (Some mock_folder) w0 = (Normal tt, w') ∧
    local_reads evs = [FileInfoLookup mock_folder] ∧
    (getFilesFromDirectory env_all_fine mock_folder w0).1 =
      Normal (s_files (app w')).
Proof.
  split; [reflexivity |].
  destruct (syncFiles_posts_what_it_shows env_all_fine mock_folder w0
              eq_refl)
    as (w' & evs & timestamp & Hrun & _ & Hget & Hreads & _).
  exists w', evs. repeat split; assumption.
Defined.

Lemma syncFiles_frame_witness :
  STORAGE_KEYS.FOLDER_URI ≠ STORAGE_KEYS.FILES_LAST_SYNC ∧
  storage (syncFiles env_all_fine (Some mock_folder) w0).2
    !! STORAGE_KEYS.FOLDER_URI = storage w0 !! STORAGE_KEYS.FOLDER_URI.
Proof.
  split; [discriminate |].
  apply (syncFiles_frame env_all_fine (Some mock_folder) w0
           STORAGE_KEYS.FOLDER_URI).
  discriminate.
Defined.

Lemma performAutoSync_frame_witness :
  STORAGE_KEYS.FOLDER_URI ≠ STORAGE_KEYS.CONTACTS_LAST_SYNC ∧
  STORAGE_KEYS.FOLDER_URI ≠ STORAGE_KEYS.FILES_LAST_SYNC ∧
  storage
    (performAutoSync env_all_fine (Some granted) (Some mock_folder) w0).2
    !! STORAGE_KEYS.FOLDER_URI = storage w0 !! STORAGE_KEYS.FOLDER_URI.
Proof.
  split; [discriminate |]. split; [discriminate |].
  apply (performAutoSync_frame env_all_fine (Some granted)
           (Some mock_folder) w0 STORAGE_KEYS.FOLDER_URI);
    discriminate.
Defined.

Lemma performAutoSync_backend_independent_witness :
  same_but_backend env_backend_500 env_all_fine ∧
  storage
    (performAutoSync env_backend_500 (Some granted) (Some mock_folder)
       w0).2 =
  storage
    (performAutoSync env_all_fine (Some granted) (Some mock_folder) w0).2.
Proof.
  assert (same_but_backend env_backend_500 env_all_fine) as Hsame.
  { repeat split. }
  split; [exact Hsame |].
  apply (performAutoSync_backend_independent env_backend_500 env_all_fine
           Hsame (Some granted) (Some mock_folder) w0).
Defined.

Lemma performManualSync_overwrites_failure_witness :
  getContactsAsync env_reads_throw =
    inl {| message := "contacts unavailable" |} ∧
  ∃ w' evs,
    performManualSync env_reads_throw (Some granted) None w0 =
      (Normal tt, w') ∧
    alerts evs =
      [Alert "Sync Error" "Failed to sync contacts: contacts unavailable"] ∧
    s_syncStatus (app w') = "Manual sync completed!".
Proof.
  split; [reflexivity |].
  destruct (performManualSync_overwrites_failure env_reads_throw
              {| message := "contacts unavailable" |} w0 eq_refl)
    as (w' & evs & Hrun & _ & Halerts & Hstatus & _).
  exists w', evs. repeat split; assumption.
Defined.

Lemma performManualSync_contacts_only_witness :
  truthy None = false ∧
  getContactsAsync env_all_fine = inr [ann] ∧
  setItem env_all_fine STORAGE_KEYS.CONTACTS_LAST_SYNC
    (iso (clock env_all_fine (S (ticks w0)))) = None ∧
  ∃ w',
    performManualSync env_all_fine (Some granted) None w0 =
      (Normal tt, w') ∧
    storage w' =
      <[STORAGE_KEYS.CONTACTS_LAST_SYNC :=
          iso (clock env_all_fine (S (ticks w0)))]> (storage w0) ∧
    s_syncStatus (app w') = "Manual sync completed!".
Proof.
  split; [reflexivity |]. split; [reflexivity |]. split; [reflexivity |].
  destruct (performManualSync_contacts_only env_all_fine None [ann] w0
              eq_refl eq_refl eq_refl)
    as (w' & evs & Hrun & _ & Hsto & _ & _ & _ & _ & _ & Hstatus).
  exists w'. repeat split; assumption.
Defined.

Lemma selectFolder_first_selection_witness :
  truthy None = false ∧
  getDocumentAsync env_all_fine =
    inr {| canceled := false;
           assets := Some [ {| asset_uri := mock_folder |} ] |} ∧
  setItem env_all_fine STORAGE_KEYS.FOLDER_URI mock_folder = None ∧
  selectFolder env_all_fine None w0 =
    (Normal tt,
     {| app := with_folder (app w0) (Some mock_folder);
        storage := <[STORAGE_KEYS.FOLDER_URI := mock_folder]> (storage w0);
        trace :=
          trace w0 ++
            [DocumentPick;
             StorageWrite STORAGE_KEYS.FOLDER_URI mock_folder;
             Alert "Success" "Folder access granted!";
             Alert "Folder Required" "Please select a folder first."];
        ticks := ticks w0 |}).
Proof.
  split; [reflexivity |]. split; [reflexivity |]. split; [reflexivity |].
  apply (selectFolder_first_selection env_all_fine None
           {| asset_uri := mock_folder |} [] w0); reflexivity.
Defined.

Lemma selectFolder_syncs_previous_folder_witness :
  truthy (Some "file:///old/folder") = true ∧
  getDocumentAsync env_all_fine =
    inr {| canceled := false;
           assets := Some [ {| asset_uri := mock_folder |} ] |} ∧
  setItem env_all_fine STORAGE_KEYS.FOLDER_URI mock_folder = None ∧
  ∃ w' evs,
    selectFolder env_all_fine (Some "file:///old/folder") w0 =
      (Normal tt, w') ∧
    trace w' =
      trace w0 ++
        [DocumentPick;
         StorageWrite STORAGE_KEYS.FOLDER_URI mock_folder;
         Alert "Success" "Folder access granted!";
         FileInfoLookup "file:///old/folder"] ++ evs ∧
    s_selectedFolderUri (app w') = Some mock_folder.
Proof.
  split; [reflexivity |]. split; [reflexivity |]. split; [reflexivity |].
  destruct (selectFolder_syncs_previous_folder env_all_fine
              "file:///old/folder" {| asset_uri := mock_folder |} [] w0
              eq_refl eq_refl eq_refl)
    as (w' & evs & Hrun & Htrace & _ & Hfolder & _).
  exists w', evs. repeat split; assumption.
Defined.

Lemma selectFolder_store_rejects_witness :
  getDocumentAsync env_picks_store_rejects =
    inr {| canceled := false;
           assets := Some [ {| asset_uri := mock_folder |} ] |} ∧
  setItem env_picks_store_rejects STORAGE_KEYS.FOLDER_URI mock_folder =
    Some {| message := "database or disk is full" |} ∧
  selectFolder env_picks_store_rejects None w0 =
    (Normal tt,
     {| app := with_folder (app w0) (Some mock_folder);
        storage := storage w0;
        trace :=
          trace w0 ++
            [DocumentPick;
             StorageWrite STORAGE_KEYS.FOLDER_URI mock_folder;
             ConsoleError "Error selecting folder:"
               {| message := "database or disk is full" |};
             Alert "Error" "Failed to select folder"];
        ticks := ticks w0 |}).
Proof.
  split; [reflexivity |]. split; [reflexivity |].
  apply (selectFolder_store_rejects env_picks_store_rejects None
           {| asset_uri := mock_folder |} []
           {| message := "database or disk is full" |} w0); reflexivity.
Defined.

Lemma selectFolder_picker_throws_witness :
  getDocumentAsync env_picker_throws =
    inl {| message := "picker unavailable" |} ∧
  selectFolder env_picker_throws (Some mock_folder) w0 =
    (Normal tt,
     after w0 [DocumentPick;
               ConsoleError "Error selecting folder:"
                 {| message := "picker unavailable" |};
               Alert "Error" "Failed to select folder"] 0).
Proof.
  split; [reflexivity |].
  apply (selectFolder_picker_throws env_picker_throws (Some mock_folder)
           {| message := "picker unavailable" |} w0); reflexivity.
Defined.

Lemma selectFolder_restart_round_trip_witness :
  truthy (Some mock_folder) = true ∧
  getDocumentAsync env_all_fine =
    inr {| canceled := false;
           assets := Some [ {| asset_uri := mock_folder |} ] |} ∧
  setItem env_all_fine STORAGE_KEYS.FOLDER_URI mock_folder = None ∧
  getItem_rejects gateway_grants STORAGE_KEYS.FOLDER_URI = None ∧
  s_selectedFolderUri
    (app (loadStoredFolderUri gateway_grants
            (restart (selectFolder env_all_fine None w0).2)).2) =
    Some mock_folder.
Proof.
  split; [reflexivity |]. split; [reflexivity |]. split; [reflexivity |].
  split; [reflexivity |].
  apply (selectFolder_restart_round_trip env_all_fine gateway_grants None
           {| asset_uri := mock_folder |} [] w0); reflexivity.
Defined.

Lemma syncContacts_restart_round_trip_witness :
  truthy (Some (iso (clock env_all_fine (S (ticks w0))))) = true ∧
  getContactsAsync env_all_fine = inr [ann] ∧
  setItem env_all_fine STORAGE_KEYS.CONTACTS_LAST_SYNC
    (iso (clock env_all_fine (S (ticks w0)))) = None ∧
  getItem_rejects gateway_grants STORAGE_KEYS.CONTACTS_LAST_SYNC = None ∧
  s_lastSyncTime
    (app (loadLastSyncTime gateway_grants
            (restart (syncContacts env_all_fine (Some granted) w0).2)).2) =
    Some (iso (clock env_all_fine (S (ticks w0)))).
Proof.
  split; [vm_compute; reflexivity |]. split; [reflexivity |].
  split; [reflexivity |]. split; [reflexivity |].
  apply (syncContacts_restart_round_trip env_all_fine gateway_grants
           [ann] w0); [vm_compute |..]; reflexivity.
Defined.

Lemma syncFiles_is_no_last_sync_witness :
  storage w0 !! STORAGE_KEYS.CONTACTS_LAST_SYNC = None ∧
  s_lastSyncTime
    (app (loadLastSyncTime gateway_grants
            (restart (syncFiles env_all_fine (Some mock_folder) w0).2)).2) =
    None.
Proof.
  split; [reflexivity |].
  apply (syncFiles_is_no_last_sync env_all_fine gateway_grants
           (Some mock_folder) w0).
  reflexivity.
Defined.

Lemma loadStoredFolderUri_nothing_stored_witness :
  truthy (storage w0 !! STORAGE_KEYS.FOLDER_URI) = false ∧
  loadStoredFolderUri gateway_grants w0 = (Normal tt, w0).
Proof.
  split; [reflexivity |].
  apply (loadStoredFolderUri_nothing_stored gateway_grants w0).
  reflexivity.
Defined.

Lemma checkContactsPermission_query_rejected_witness :
  getPermissionsAsync gateway_throws =
    inl {| message := "module missing" |} ∧
  checkContactsPermission gateway_throws w0 =
    (Normal denied,
     after w0 [ConsoleError "Error checking contacts permission:"
                 {| message := "module missing" |}] 0).
Proof.
  split; [reflexivity |].
  apply (checkContactsPermission_query_rejected gateway_throws
           {| message := "module missing" |} w0).
  reflexivity.
Defined.

Lemma requestContactsPermission_granted_does_not_sync_witness :
  None ≠ Some granted ∧
  requestPermissionsAsync gateway_grants = inr granted ∧
  requestContactsPermission env_all_fine gateway_grants None w0 =
    (Normal granted,
     {| app := with_permission (app w0) (Some granted);
        storage := storage w0;
        trace :=
          trace w0 ++
            [Alert "Success" "Contacts permission granted!";
             Alert "Permission Required"
                   "Please grant contacts permission first."];
        ticks := ticks w0 |}).
Proof.
  split; [discriminate |]. split; [reflexivity |].
  apply (requestContactsPermission_granted_does_not_sync env_all_fine
           gateway_grants None w0); [discriminate | reflexivity].
Defined.

Lemma requestContactsPermission_refused_witness :
  denied ≠ granted ∧
  requestPermissionsAsync gateway_denies = inr denied ∧
  requestContactsPermission env_all_fine gateway_denies None w0 =
    (Normal denied,
     {| app := with_permission (app w0) (Some denied);
        storage := storage w0;
        trace :=
          trace w0 ++
            [Alert "Permission Denied"
               "Contacts access is required for this app to work properly."];
        ticks := ticks w0 |}).
Proof.
  split; [discriminate |]. split; [reflexivity |].
  apply (requestContactsPermission_refused env_all_fine gateway_denies
           None denied w0); [discriminate | reflexivity].
Defined.

Lemma requestContactsPermission_rejected_witness :
  requestPermissionsAsync gateway_throws =
    inl {| message := "module missing" |} ∧
  requestContactsPermission env_all_fine gateway_throws None w0 =
    (Normal denied,
     after w0 [ConsoleError "Error requesting contacts permission:"
                 {| message := "module missing" |};
               Alert "Error" "Failed to request contacts permission"] 0).
Proof.
  split; [reflexivity |].
  apply (requestContactsPermission_rejected env_all_fine gateway_throws
           None {| message := "module missing" |} w0).
  reflexivity.
Defined.

Lemma initializeApp_starts_no_sync_witness :
  (None ≠ Some granted ∨ truthy None = false) ∧
  ∃ w' logs,
    initializeApp env_all_fine gateway_grants None None w0 =
      (Normal tt, w') ∧
    trace w' = trace w0 ++ logs ∧
    forallb is_log logs = true ∧
    storage w' = storage w0.
Proof.
  split; [right; reflexivity |].
  destruct (initializeApp_starts_no_sync env_all_fine gateway_grants
              None None w0 (or_intror eq_refl))
    as (w' & logs & Hrun & Htrace & Hlogs & Hsto & _).
  exists w', logs. repeat split; assumption.
Defined.

(** At the first render the gateway reports [granted] and the store
    holds a folder, and still nothing is synced. *)
Example initializeApp_first_render :
  let w := {| app := initialState;
              storage := {[ STORAGE_KEYS.FOLDER_URI := mock_folder ]};
              trace := []; ticks := 0 |} in
  let w' := (initializeApp env_all_fine gateway_grants None None w).2 in
  s_contactsPermission (app w') = Some granted ∧
  s_selectedFolderUri (app w') = Some mock_folder ∧
  trace w' = [].
Proof. by vm_compute. Qed.

(** ** The amended claims on concrete platforms *)

Lemma syncFiles_info_throws_is_swallowed_witness :
  truthy (Some mock_folder) = true ∧
  getInfoAsync env_reads_throw mock_folder =
    inl {| message := "permission denied" |} ∧
  ∃ w' evs,
    syncFiles env_reads_throw (Some mock_folder) w0 = (Normal tt, w') ∧
    trace w' =
      trace w0 ++
        [FileInfoLookup mock_folder;
         ConsoleError "Error getting files:"
                      {| message := "permission denied" |}] ++ evs ∧
    s_files (app w') = [] ∧
    network_requests evs =
      [HttpPost (BACKEND_URL +:+ "/sync-files")
         (FilesBody [] (iso (clock env_reads_throw (ticks w0))))] ∧
    storage w' =
      <[STORAGE_KEYS.FILES_LAST_SYNC :=
          iso (clock env_reads_throw (S (ticks w0)))]> (storage w0) ∧
    s_syncStatus (app w') = "Files synced successfully!" ∧
    quiet evs = true.
Proof.
  split; [reflexivity |]. split; [reflexivity |].
  destruct (syncFiles_info_throws_is_swallowed env_reads_throw mock_folder
              {| message := "permission denied" |} w0 eq_refl eq_refl)
    as (w' & evs & Hrun & Htrace & Hfiles & Hposts & _ & Hcase).
  change (storage w' =
            <[STORAGE_KEYS.FILES_LAST_SYNC :=
                iso (clock env_reads_throw (S (ticks w0)))]> (storage w0) ∧
          s_syncStatus (app w') = "Files synced successfully!" ∧
          quiet evs = true) in Hcase.
  destruct Hcase as (Hsto & Hstatus & Hquiet).
  exists w', evs. repeat split; assumption.
Defined.

(** C3 as stated fails: the contact read throws with the permission
    granted and a folder set.  The files sync is attempted, but the error
    is not swallowed: [syncContacts] raises the "Sync Error" alert. *)
Lemma performAutoSync_failure_is_surfaced_counterexample :
  let e := {| message := "contacts unavailable" |} in
  let r := performAutoSync env_reads_throw (Some granted)
             (Some mock_folder) w0 in
  getContactsAsync env_reads_throw = inl e ∧
  truthy (Some mock_folder) = true ∧
  FileInfoLookup mock_folder ∈ trace r.2 ∧
  Alert "Sync Error" "Failed to sync contacts: contacts unavailable"
    ∈ trace r.2 ∧
  ¬ swallowed_and_logged w0 e r.
Proof.
  intros e r. split; [reflexivity |]. split; [reflexivity |].
  split; [vm_compute; repeat constructor |].
  split; [vm_compute; repeat constructor |].
  intros (_ & _ & evs & Htrace & Hquiet).
  vm_compute in Htrace. rewrite <- Htrace in Hquiet.
  vm_compute in Hquiet. discriminate Hquiet.
Qed.

Lemma performAutoSync_contacts_failure_keeps_files_witness :
  truthy (Some mock_folder) = true ∧
  ∃ w1 w' evs1 evs2,
    syncContacts env_reads_throw (Some granted) w0 = (Normal tt, w1) ∧
    trace w1 = trace w0 ++ evs1 ∧
    syncFiles env_reads_throw (Some mock_folder) w1 = (Normal tt, w') ∧
    trace w' = trace w1 ++ FileInfoLookup mock_folder :: evs2 ∧
    performAutoSync env_reads_throw (Some granted) (Some mock_folder) w0 =
      (Normal tt, w') ∧
    ConsoleError "Error syncing contacts:"
      {| message := "contacts unavailable" |} ∈ evs1 ∧
    alerts evs1 =
      [Alert "Sync Error"
         ("Failed to sync contacts: " +:+
          message {| message := "contacts unavailable" |})] ∧
    alerts evs2 = [].
Proof.
  split; [reflexivity |].
  destruct (performAutoSync_contacts_failure_keeps_files env_reads_throw
              mock_folder w0 eq_refl)
    as ((w1 & w' & evs1 & evs2 & Hrun1 & Htrace1 & Hrun2 & Htrace2 &
         Hauto & Herr1 & Herr2) & _).
  change (ConsoleError "Error syncing contacts:"
            {| message := "contacts unavailable" |} ∈ evs1 ∧
          alerts evs1 =
            [Alert "Sync Error"
               ("Failed to sync contacts: " +:+
                message {| message := "contacts unavailable" |})])
    in Herr1.
  change (alerts evs2 = []) in Herr2.
  destruct Herr1 as (Hlogged & Halerted).
  exists w1, w', evs1, evs2. repeat split; assumption.
Defined.
